(** * Account transfer without database transactions

    A shallow embedding of [server.js] (the Express handlers [POST /users],
    [GET /users/:id/balance], [POST /transfer] and [GET /users]), of the
    [User] schema of [models/User.js] and of the script [seed.js], together
    with the properties of the transfer protocol: zero-effect rejection, no
    overdraft, the balances of completed and compensated transfers, and the
    classification of outcomes.

    Layout: values and numbers, the document store and its atomic
    operations, handlers as trees of store calls (one node per [await]),
    their execution against a store under interference and store errors,
    the interleaved system of in-flight requests, and then the theorems.

    The handlers are embedded twice.  First with balances as exact integers
    in minor units and identifiers as opaque strings: this is the setting of
    the properties of the protocol as such (which calls are made, in which
    order, which of them are applied, how outcomes are classified, and the
    interleaving of requests).  Then, in module [Doubles], with balances as
    binary64 doubles and with the casts the store library applies to
    identifiers, names and numbers: this is the setting of the properties
    of the balances that are returned and stored. *)

From Stdlib Require Import ZArith Bool Ascii String List Lia Floats.
From stdpp Require Import base option list strings gmap fin_maps.

Local Open Scope Z_scope.

(** ** JavaScript values *)

(** A JavaScript number.  Finite values are integers (currency in minor
    units, the representation [models/User.js] recommends for production);
    on them addition, negation and comparison are exact.  [NaN] is kept as a
    value of its own because the guards of the handlers treat it specially:
    every comparison with [NaN] is false.  Rounding of fractional values and
    the infinities are outside this model. *)
Inductive JsNumber : Type :=
| NaN
| Int (z : Z).

(** [a <= b] *)
Definition num_le (a b : JsNumber) : bool :=
  match a, b with
  | Int x, Int y => x <=? y
  | _, _ => false
  end.

(** [a >= b] *)
Definition num_ge (a b : JsNumber) : bool := num_le b a.

(** [a < b] *)
Definition num_lt (a b : JsNumber) : bool :=
  match a, b with
  | Int x, Int y => x <? y
  | _, _ => false
  end.

(** [-a] *)
Definition num_neg (a : JsNumber) : JsNumber :=
  match a with
  | NaN => NaN
  | Int x => Int (- x)
  end.

(** [a + b] *)
Definition num_add (a b : JsNumber) : JsNumber :=
  match a, b with
  | Int x, Int y => Int (x + y)
  | _, _ => NaN
  end.

(** [a === b] on numbers *)
Definition num_eq (a b : JsNumber) : bool :=
  match a, b with
  | Int x, Int y => x =? y
  | _, _ => false
  end.

(** A value found in a parsed request body.  Objects and arrays are kept
    only by identity: the handlers never look inside one, they test it for
    truthiness and compare it with [===]. *)
Inductive JsValue : Type :=
| JUndefined
| JNull
| JBool (b : bool)
| JNumber (n : JsNumber)
| JString (s : string)
| JObject (ref : nat).

(** Truthiness, as tested by [!v]. *)
Definition truthy (v : JsValue) : bool :=
  match v with
  | JUndefined | JNull => false
  | JBool b => b
  | JNumber NaN => false
  | JNumber (Int z) => negb (z =? 0)
  | JString s => negb (String.eqb s EmptyString)
  | JObject _ => true
  end.

(** [typeof v === 'number'] *)
Definition typeof_number (v : JsValue) : bool :=
  match v with
  | JNumber _ => true
  | _ => false
  end.

(** [a === b] *)
Definition strict_eq (a b : JsValue) : bool :=
  match a, b with
  | JUndefined, JUndefined => true
  | JNull, JNull => true
  | JBool x, JBool y => Bool.eqb x y
  | JNumber x, JNumber y => num_eq x y
  | JString x, JString y => String.eqb x y
  | JObject x, JObject y => Nat.eqb x y
  | _, _ => false
  end.

(** The number held by a value whose [typeof] is ['number']; the handlers
    use an amount arithmetically only behind that test. *)
Definition as_number (v : JsValue) : JsNumber :=
  match v with
  | JNumber n => n
  | _ => NaN
  end.

(** ** The document store *)

(** Identifiers of stored documents, in their 24-digit hexadecimal form. *)
Abbreviation ObjectId := string (only parsing).

Definition is_hex_digit (c : ascii) : bool :=
  let n := nat_of_ascii c in
  ((48 <=? n)%nat && (n <=? 57)%nat)
  || ((65 <=? n)%nat && (n <=? 70)%nat)
  || ((97 <=? n)%nat && (n <=? 102)%nat).

Definition isObjectIdString (s : string) : bool :=
  (String.length s =? 24)%nat && forallb is_hex_digit (list_ascii_of_string s).

(** Modelled from the spec: the store's reading of an identifier given in a
    query.  The store library is not part of the sources; the specification
    asks for syntactically valid identifiers and treats them as opaque, so a
    well-formed identifier string denotes itself and anything else is
    refused by the store with an error. *)
Definition castObjectId (v : JsValue) : option ObjectId :=
  match v with
  | JString s => if isObjectIdString s then Some s else None
  | _ => None
  end.

(** [models/User.js]: the two fields of the schema (timestamps left out). *)
Record User : Type := mkUser { name : string; balance : JsNumber }.

(** The [User] collection. *)
Abbreviation Store := (gmap string User).

(** The store operations the handlers await.
    - [Exists id] is [User.exists({ _id: id })];
    - [FindOneAndUpdate id gte inc returnNew] is
      [User.findOneAndUpdate({ _id: id, balance: { $gte: g } },
      { $inc: { balance: inc } }, { new: returnNew })], the [balance]
      condition being absent when [gte] is [None];
    - [Save id u] is [new User(u).save()], [id] being the identifier the
      new document is given. *)
Inductive StoreCall : Type :=
| Exists (id : JsValue)
| FindOneAndUpdate (id : JsValue) (gte : option JsNumber) (inc : JsNumber)
                   (returnNew : bool)
| Save (id : ObjectId) (u : User).

(** [User.findByIdAndUpdate(id, { $inc: { balance: inc } }, { new })] is
    [findOneAndUpdate] on the identifier alone. *)
Definition FindByIdAndUpdate (id : JsValue) (inc : JsNumber) (returnNew : bool)
  : StoreCall :=
  FindOneAndUpdate id None inc returnNew.

(** What an awaited store call gives back: a raised error, [null], or a
    document. *)
Inductive Answer : Type :=
| Threw
| Null
| Doc (id : ObjectId) (u : User).

(** [!answer] for an answer that is not an error. *)
Definition found (a : Answer) : bool :=
  match a with
  | Doc _ _ => true
  | _ => false
  end.

Definition matches_gte (gte : option JsNumber) (b : JsNumber) : bool :=
  match gte with
  | None => true
  | Some g => num_ge b g
  end.

Definition inc_balance (inc : JsNumber) (u : User) : User :=
  mkUser (name u) (num_add (balance u) inc).

(** Modelled from the spec: the atomic primitives of the account store
    (existence probe, conditional decrement, increment), each a single
    indivisible read-modify-write of one document.  An update that matches
    no document changes nothing and answers [null]; the condition [$gte]
    compares as JavaScript numbers do.  Saving stores the document as
    given. *)
Definition store_call (c : StoreCall) (σ : Store) : Answer * Store :=
  match c with
  | Exists v =>
      match castObjectId v with
      | None => (Threw, σ)
      | Some i =>
          match σ !! i with
          | Some u => (Doc i u, σ)
          | None => (Null, σ)
          end
      end
  | FindOneAndUpdate v gte inc returnNew =>
      match castObjectId v with
      | None => (Threw, σ)
      | Some i =>
          match σ !! i with
          | Some u =>
              if matches_gte gte (balance u)
              then (Doc i (if returnNew then inc_balance inc u else u),
                    <[i := inc_balance inc u]> σ)
              else (Null, σ)
          | None => (Null, σ)
          end
      end
  | Save i u => (Doc i u, <[i := u]> σ)
  end.

(** ** Handlers *)

Inductive Body : Type :=
| Message (message : string)
| TransferSuccessful (from_id : ObjectId) (from_newBalance : JsNumber)
                     (to_id : ObjectId) (to_newBalance : JsNumber)
| UserCreated (id : ObjectId) (user : User).

(** [res.status(s).json(b)] *)
Record Response : Type := json { status : nat; body : Body }.

(** An [async] handler: it returns a response, or raises, or awaits a store
    call and goes on with its answer. *)
Inductive Prog : Type :=
| Ret (r : Response)
| Throw
| Call (c : StoreCall) (k : Answer -> Prog).

(** [await c]: a raised error leaves the enclosing block. *)
Definition await (c : StoreCall) (k : Answer -> Prog) : Prog :=
  Call c (fun a => match a with Threw => Throw | _ => k a end).

(** [try { p } catch (e) { h }] *)
Fixpoint try_catch (p : Prog) (h : Prog) : Prog :=
  match p with
  | Ret r => Ret r
  | Throw => h
  | Call c k => Call c (fun a => try_catch (k a) h)
  end.

Record TransferBody : Type :=
  mkTransfer { fromUserId : JsValue; toUserId : JsValue; amount : JsValue }.

Definition msg_provide : string :=
  "Provide fromUserId, toUserId, and amount (number)".
Definition msg_same : string := "fromUserId and toUserId cannot be same".
Definition msg_amount : string := "Amount must be > 0".
Definition msg_no_sender : string := "Sender account not found".
Definition msg_no_recipient : string := "Recipient account not found".
Definition msg_insufficient : string := "Insufficient balance".
Definition msg_rolled_back : string :=
  "Recipient not found during crediting; transfer rolled back".
Definition msg_critical : string :=
  "Critical error: credit failed and refund failed - manual reconciliation required".
Definition msg_refunded : string :=
  "Credit failed; sender refunded (best-effort)".
Definition msg_server_error : string := "Server error".

(** The [catch (creditErr)] block of [POST /transfer]: one refund under its
    own [try]; the final [return] cannot raise, so it is the continuation
    of the refund. *)
Definition credit_error_handler (from : JsValue) (amt : JsNumber) : Prog :=
  try_catch
    (await (FindByIdAndUpdate from amt true)
       (fun _refund => Ret (json 500 (Message msg_refunded))))
    (Ret (json 500 (Message msg_critical))).

(** The inner [try] block of [POST /transfer]: credit the recipient; when
    no recipient document is found, refund the sender. *)
Definition credit_block (from to : JsValue) (amt : JsNumber)
    (sender_id : ObjectId) (senderUpdate : User) : Prog :=
  await (FindByIdAndUpdate to amt true)
    (fun recipientUpdate =>
       match recipientUpdate with
       | Doc rid r =>
           Ret (json 200
                  (TransferSuccessful sender_id (balance senderUpdate)
                                      rid (balance r)))
       | _ =>
           await (FindByIdAndUpdate from amt false)
             (fun _ => Ret (json 500 (Message msg_rolled_back)))
       end).

(** What follows the input validation inside the outer [try]. *)
Definition transfer_checked (from to : JsValue) (amt : JsNumber) : Prog :=
  (* Promise.all: both existence queries are issued *)
  Call (Exists from) (fun fromUserExists =>
  Call (Exists to) (fun toUserExists =>
    match fromUserExists, toUserExists with
    | Threw, _ | _, Threw => Throw
    | _, _ =>
        if negb (found fromUserExists)
        then Ret (json 404 (Message msg_no_sender))
        else if negb (found toUserExists)
        then Ret (json 404 (Message msg_no_recipient))
        else
          await (FindOneAndUpdate from (Some amt) (num_neg amt) true)
            (fun senderUpdate =>
               match senderUpdate with
               | Doc sid s =>
                   try_catch (credit_block from to amt sid s)
                             (credit_error_handler from amt)
               | _ => Ret (json 409 (Message msg_insufficient))
               end)
    end)).

(** The "basic validation" of [POST /transfer]: the response returned by
    the first test that fails, if one does. *)
Definition validate (req : TransferBody) : option Response :=
  if negb (truthy (fromUserId req)) || negb (truthy (toUserId req))
     || negb (typeof_number (amount req))
  then Some (json 400 (Message msg_provide))
  else if strict_eq (fromUserId req) (toUserId req)
  then Some (json 400 (Message msg_same))
  else if num_le (as_number (amount req)) (Int 0)
  then Some (json 400 (Message msg_amount))
  else None.

(** [app.post('/transfer', ...)] *)
Definition transfer (req : TransferBody) : Prog :=
  try_catch
    (match validate req with
     | Some r => Ret r
     | None =>
         transfer_checked (fromUserId req) (toUserId req)
                          (as_number (amount req))
     end)
    (Ret (json 500 (Message msg_server_error))).

Record UserBody : Type := mkUserBody { body_name : JsValue; body_balance : JsValue }.

Definition msg_provide_user : string :=
  "Provide name (string) and balance (number)".

(** The string kept for a name that is a string.  What the schema makes of
    a truthy name of another type is not modelled; the properties below are
    stated for string names. *)
Definition name_of (v : JsValue) : string :=
  match v with
  | JString s => s
  | _ => EmptyString
  end.

(** [app.post('/users', ...)]; [fresh] is the identifier [new User] gives
    the document. *)
Definition createUser (fresh : ObjectId) (req : UserBody) : Prog :=
  try_catch
    (if negb (truthy (body_name req)) || negb (typeof_number (body_balance req))
     then Ret (json 400 (Message msg_provide_user))
     else
       await (Save fresh (mkUser (name_of (body_name req))
                                 (as_number (body_balance req))))
         (fun saved =>
            match saved with
            | Doc i u => Ret (json 201 (UserCreated i u))
            | _ => Throw
            end))
    (Ret (json 500 (Message msg_server_error))).

(** ** Running a handler against the store *)

(** What surrounds one awaited store call: what the rest of the world did to
    the collection since the handler's previous call ([interference]: other
    requests, the bulk removal of [seed.js]), and whether the call itself
    raises ([fails]: a store or network error).  A call that raises has not
    been applied. *)
Record Turn : Type := mkTurn { interference : Store -> Store; fails : bool }.

Definition quiet : Turn := mkTurn (fun σ => σ) false.

(** A store or network error on an otherwise undisturbed call. *)
Definition outage : Turn := mkTurn (fun σ => σ) true.

(** [seed.js]: [User.deleteMany({})] runs before the call. *)
Definition deleteMany_all : Turn := mkTurn (fun _ => ∅) false.

(** One document is removed before the call. *)
Definition removed (x : ObjectId) : Turn := mkTurn (delete x) false.

Definition answer (t : Turn) (c : StoreCall) (σ : Store) : Answer * Store :=
  if fails t then (Threw, interference t σ)
  else store_call c (interference t σ).

Inductive Outcome : Type :=
| Responded (r : Response)
| Unhandled.

Record Result : Type :=
  mkResult { outcome : Outcome; final : Store;
             trace : list (StoreCall * Answer) }.

Definition logged (ca : StoreCall * Answer) (r : Result) : Result :=
  mkResult (outcome r) (final r) (ca :: trace r).

(** The handler runs to its end; the [n]-th store call meets the [n]-th turn
    of the schedule, and a quiet turn once the schedule is used up. *)
Fixpoint run (p : Prog) (sched : list Turn) (σ : Store) : Result :=
  match p with
  | Ret r => mkResult (Responded r) σ []
  | Throw => mkResult Unhandled σ []
  | Call c k =>
      let t := hd quiet sched in
      let a := answer t c σ in
      logged (c, a.1) (run (k a.1) (tl sched) a.2)
  end.

(** The turn leaves document [x] as it is. *)
Definition leaves (x : ObjectId) (t : Turn) : Prop :=
  ∀ σ : Store, interference t σ !! x = σ !! x.

(** A store call that changed a document: an update answered with one. *)
Definition applied (ca : StoreCall * Answer) : bool :=
  match ca with
  | (FindOneAndUpdate _ _ _ _, Doc _ _) => true
  | (Save _ _, Doc _ _) => true
  | _ => false
  end.

(** ** Outcomes in the words of the specification *)

Inductive Reason : Type := InvalidRequest | AccountNotFound | InsufficientFunds.

Inductive TransferResult : Type :=
| Completed (fromBalance toBalance : JsNumber)
| Rejected (reason : Reason)
| PartiallyFailed (compensated : bool).

(** The result a response stands for: the status class, and for status 500
    the message that tells a refunded transfer from the critical one.  The
    generic ["Server error"] stands for none of them. *)
Definition classify (r : Response) : option TransferResult :=
  match status r, body r with
  | 200%nat, TransferSuccessful _ fb _ tb => Some (Completed fb tb)
  | 400%nat, _ => Some (Rejected InvalidRequest)
  | 404%nat, _ => Some (Rejected AccountNotFound)
  | 409%nat, _ => Some (Rejected InsufficientFunds)
  | 500%nat, Message m =>
      if String.eqb m msg_critical then Some (PartiallyFailed false)
      else if String.eqb m msg_rolled_back || String.eqb m msg_refunded
      then Some (PartiallyFailed true)
      else None
  | _, _ => None
  end.

Definition result_of (o : Outcome) : option TransferResult :=
  match o with
  | Responded r => classify r
  | Unhandled => None
  end.


(** ** The interleaved system *)

(** What can happen to the collection and to the requests in flight. *)
Inductive Event : Type :=
| Arrives (req : TransferBody)     (* a [POST /transfer] is received *)
| Resumes (i : nat) (fails : bool) (* request [i] gets its pending store call done *)
| Removes (x : ObjectId)           (* one document is removed *)
| RemovesAll.                      (* [User.deleteMany({})] of [seed.js] *)

Record System : Type := mkSystem { store : Store; inflight : list Prog }.

(** One atomic step: requests interleave between store calls, never inside
    one. *)
Definition sys_step (s : System) (e : Event) : System :=
  match e with
  | Arrives req => mkSystem (store s) (inflight s ++ [transfer req])
  | Resumes i f =>
      match inflight s !! i with
      | Some (Call c k) =>
          let a := answer (mkTurn (fun σ => σ) f) c (store s) in
          mkSystem a.2 (<[i := k a.1]> (inflight s))
      | _ => s
      end
  | Removes x => mkSystem (delete x (store s)) (inflight s)
  | RemovesAll => mkSystem ∅ (inflight s)
  end.

Definition sys_run (es : list Event) (s : System) : System :=
  fold_left sys_step es s.



(** An answer the store can give to a call. *)
Definition plausible (c : StoreCall) (a : Answer) : Prop :=
  a = Threw ∨ ∃ σ : Store, a = (store_call c σ).1.


(** ** Paths through a handler *)

(** [path p tr o]: answering the handler's calls as in [tr] leads it to
    [o]. *)
Inductive path : Prog -> list (StoreCall * Answer) -> Outcome -> Prop :=
| path_ret r : path (Ret r) [] (Responded r)
| path_throw : path Throw [] Unhandled
| path_call c k a tr o :
    path (k a) tr o -> path (Call c k) ((c, a) :: tr) o.

(** The effect of one logged call on document [x]. *)
Definition effect_on (x : ObjectId) (ca : StoreCall * Answer)
    (d : option User) : option User :=
  match ca with
  | (FindOneAndUpdate _ _ inc _, Doc i _) =>
      if String.eqb i x then inc_balance inc <$> d else d
  | (Save _ _, Doc i u) => if String.eqb i x then Some u else d
  | _ => d
  end.

(** The compensating increments of a transfer: the unguarded updates of the
    sender's document. *)
Definition is_refund (req : TransferBody) (ca : StoreCall * Answer) : bool :=
  match ca.1 with
  | FindOneAndUpdate v None inc _ =>
      strict_eq v (fromUserId req) && num_eq inc (as_number (amount req))
  | _ => false
  end.

Definition refund_attempts (req : TransferBody) (r : Result) : nat :=
  length (List.filter (is_refund req) (trace r)).

(** ** The paths of a transfer *)

Section TransferPaths.

Variable req : TransferBody.

Let from := fromUserId req.
Let to := toUserId req.
Let amt := as_number (amount req).

Let probe_from := Exists from.
Let probe_to := Exists to.
Let debit := FindOneAndUpdate from (Some amt) (num_neg amt) true.
Let credit := FindByIdAndUpdate to amt true.
Let refund_unchecked := FindByIdAndUpdate from amt false.
Let refund := FindByIdAndUpdate from amt true.

(** The ways through [POST /transfer], by the answers met. *)
Inductive shape : list (StoreCall * Answer) -> Response -> Prop :=
| sh_invalid r :
    validate req = Some r -> shape [] r
| sh_probe_error a1 a2 :
    validate req = None -> a1 = Threw ∨ a2 = Threw ->
    shape [(probe_from, a1); (probe_to, a2)]
          (json 500 (Message msg_server_error))
| sh_no_sender a2 :
    validate req = None -> a2 ≠ Threw ->
    shape [(probe_from, Null); (probe_to, a2)]
          (json 404 (Message msg_no_sender))
| sh_no_recipient i u :
    validate req = None ->
    shape [(probe_from, Doc i u); (probe_to, Null)]
          (json 404 (Message msg_no_recipient))
| sh_debit_error i u j w :
    validate req = None ->
    shape [(probe_from, Doc i u); (probe_to, Doc j w); (debit, Threw)]
          (json 500 (Message msg_server_error))
| sh_insufficient i u j w :
    validate req = None ->
    shape [(probe_from, Doc i u); (probe_to, Doc j w); (debit, Null)]
          (json 409 (Message msg_insufficient))
| sh_completed i u j w sid s rid r :
    validate req = None ->
    shape [(probe_from, Doc i u); (probe_to, Doc j w);
           (debit, Doc sid s); (credit, Doc rid r)]
          (json 200 (TransferSuccessful sid (balance s) rid (balance r)))
| sh_rolled_back i u j w sid s a :
    validate req = None -> a ≠ Threw ->
    shape [(probe_from, Doc i u); (probe_to, Doc j w);
           (debit, Doc sid s); (credit, Null); (refund_unchecked, a)]
          (json 500 (Message msg_rolled_back))
| sh_second_refund i u j w sid s a :
    validate req = None -> a ≠ Threw ->
    shape [(probe_from, Doc i u); (probe_to, Doc j w);
           (debit, Doc sid s); (credit, Null); (refund_unchecked, Threw);
           (refund, a)]
          (json 500 (Message msg_refunded))
| sh_second_refund_error i u j w sid s :
    validate req = None ->
    shape [(probe_from, Doc i u); (probe_to, Doc j w);
           (debit, Doc sid s); (credit, Null); (refund_unchecked, Threw);
           (refund, Threw)]
          (json 500 (Message msg_critical))
| sh_refunded i u j w sid s a :
    validate req = None -> a ≠ Threw ->
    shape [(probe_from, Doc i u); (probe_to, Doc j w);
           (debit, Doc sid s); (credit, Threw); (refund, a)]
          (json 500 (Message msg_refunded))
| sh_critical i u j w sid s :
    validate req = None ->
    shape [(probe_from, Doc i u); (probe_to, Doc j w);
           (debit, Doc sid s); (credit, Threw); (refund, Threw)]
          (json 500 (Message msg_critical)).

End TransferPaths.

(** ** Replaying a trace *)

(** [replay sched σ tr σ']: the answers logged in [tr] are those the store
    gave, turn after turn, from [σ] to [σ']. *)
Inductive replay : list Turn -> Store -> list (StoreCall * Answer) -> Store -> Prop :=
| replay_nil sched σ : replay sched σ [] σ
| replay_cons sched σ c a σ1 tr σ' :
    answer (hd quiet sched) c σ = (a, σ1) ->
    replay (tl sched) σ1 tr σ' ->
    replay sched σ ((c, a) :: tr) σ'.

(** ** The request validation in the words of the specification *)

Definition syntactically_valid (v : JsValue) : bool :=
  match castObjectId v with
  | Some _ => true
  | None => false
  end.

(** The malformed requests as the specification lists them: equal
    identifiers, an amount that is not strictly positive, an identifier that
    is not syntactically valid. *)
Definition malformed (req : TransferBody) : bool :=
  strict_eq (fromUserId req) (toUserId req)
  || negb (num_lt (Int 0) (as_number (amount req)))
  || negb (syntactically_valid (fromUserId req))
  || negb (syntactically_valid (toUserId req)).

(** The tests the handler makes before its first store call. *)
Definition fails_validation (req : TransferBody) : Prop :=
  truthy (fromUserId req) = false ∨ truthy (toUserId req) = false
  ∨ typeof_number (amount req) = false
  ∨ strict_eq (fromUserId req) (toUserId req) = true
  ∨ num_le (as_number (amount req)) (Int 0) = true.


(** ** Credit and compensation in a trace *)

(** The credit of a transfer: the unguarded update of the recipient's
    document. *)
Definition is_credit (req : TransferBody) (ca : StoreCall * Answer) : bool :=
  match ca.1 with
  | FindOneAndUpdate v None inc _ =>
      strict_eq v (toUserId req) && num_eq inc (as_number (amount req))
  | _ => false
  end.

(** The credit step failed: it raised, or found no recipient. *)
Definition credit_failed (req : TransferBody) (r : Result) : bool :=
  existsb (fun ca => is_credit req ca && negb (found ca.2)) (trace r).

(** A compensating increment was applied to the sender's document. *)
Definition compensation_applied (req : TransferBody) (r : Result) : bool :=
  existsb (fun ca => is_refund req ca && applied ca) (trace r).

(** The answer to the last store call of a run. *)
Definition last_answer (r : Result) : option Answer := snd <$> last (trace r).

(** The [compensated] flag the handler reports after a compensating call
    answered [a]: only a raised error clears it. *)
Definition reported_compensated (a : Answer) : bool :=
  match a with
  | Threw => false
  | _ => true
  end.

(** ** The invariant of the interleaved system *)



(** ** Scenarios *)

Module Scenario.

Definition alice : ObjectId := "65f0a1b2c3d4e5f601234567".
Definition bob : ObjectId := "65f0a1b2c3d4e5f60123abcd".

(** The collection [seed.js] leaves behind. *)
Definition seeded : Store :=
  <[alice := mkUser "Alice" (Int 1000)]>
    (<[bob := mkUser "Bob" (Int 500)]> ∅).

Definition pay (a : Z) : TransferBody :=
  mkTransfer (JString alice) (JString bob) (JNumber (Int a)).

Definition balance_of (x : ObjectId) (σ : Store) : option JsNumber :=
  balance <$> σ !! x.


(** A request naming two distinct, non-empty strings that are not
    identifiers of the store, with a positive amount. *)
Definition ill_formed_ids : TransferBody :=
  mkTransfer (JString "abc") (JString "def") (JNumber (Int 5)).



End Scenario.

(** ** The read handlers *)

Inductive ReadBody : Type :=
| ReadMessage (message : string)
| BalanceOf (id : ObjectId) (name : string) (balance : JsNumber)
| UserList (users : list (ObjectId * User)).

(** [res.status(s).json(b)], and [res.json(b)] with status 200. *)
Record ReadResponse : Type :=
  read_json { read_status : nat; read_body : ReadBody }.

Definition msg_user_not_found : string := "User not found".


(** [app.get('/users', ...)]: [User.find().lean()] answers with every
    document of the collection; the order is the store's own. *)
Definition listUsers (t : Turn) (σ : Store) : ReadResponse * Store :=
  (if fails t then read_json 500 (ReadMessage msg_server_error)
   else read_json 200 (UserList (map_to_list (interference t σ))),
   interference t σ).

(** ** The seed script *)

(** The awaited steps of [seed()] in [seed.js], in order. *)
Inductive SeedStep : Type :=
| Connect
| DeleteMany
| SaveUser (id : ObjectId) (u : User)
| Disconnect.

(** How the script ends: normally, or through [process.exit(1)] in the
    [catch] of [seed()]. *)
Inductive Exit : Type := Done | ExitedWithError.

Definition seed_alice : User := mkUser "Alice" (Int 1000).
Definition seed_bob : User := mkUser "Bob" (Int 500).

(** [ida] and [idb] are the identifiers [new User] gives the two
    documents. *)
Definition seed_steps (ida idb : ObjectId) : list SeedStep :=
  [Connect; DeleteMany; SaveUser ida seed_alice; SaveUser idb seed_bob;
   Disconnect].

Definition seed_effect (s : SeedStep) (σ : Store) : Store :=
  match s with
  | Connect | Disconnect => σ
  | DeleteMany => ∅
  | SaveUser i u => (store_call (Save i u) σ).2
  end.

(** Steps run in sequence; the first one that raises ends the script, the
    steps before it having been applied.  [raises] tells, step by step,
    which one raises. *)
Fixpoint run_steps (steps : list SeedStep) (raises : list bool) (σ : Store)
  : Exit * Store :=
  match steps with
  | [] => (Done, σ)
  | s :: rest =>
      if hd false raises then (ExitedWithError, σ)
      else run_steps rest (tl raises) (seed_effect s σ)
  end.

(** [seed().catch(...)] *)
Definition seed (ida idb : ObjectId) (raises : list bool) (σ : Store)
  : Exit * Store :=
  run_steps (seed_steps ida idb) raises σ.

(** ** Further notions for the properties of the handlers *)

(** The status of the response, if the handler gave one. *)
Definition status_of (o : Outcome) : option nat :=
  match o with
  | Responded r => Some (status r)
  | Unhandled => None
  end.


(** ** The handlers over doubles and the casts of the store library *)

(** The definitions above take balances as integers in minor units and
    identifiers as opaque strings.  [models/User.js] declares [balance] of
    type [Number], a binary64 double, and the handlers hand the identifiers
    of a request to the store library as they come.  This module embeds the
    same handlers over doubles, with rounding, the infinities and [NaN], and
    with the casts the store library applies to an identifier, a name and a
    number before a call reaches the collection. *)
Module Doubles.

(** *** Numbers *)

(** A JavaScript number: a binary64 double. *)
Abbreviation JsNumber := float (only parsing).

Definition NaN : JsNumber := PrimFloat.nan.

(** [Number.isNaN(a)] *)
Definition isNaN (a : JsNumber) : bool := PrimFloat.is_nan a.

(** [a <= b] *)
Definition num_le (a b : JsNumber) : bool := PrimFloat.leb a b.

(** [a >= b] *)
Definition num_ge (a b : JsNumber) : bool := num_le b a.

(** [a < b] *)
Definition num_lt (a b : JsNumber) : bool := PrimFloat.ltb a b.

(** [-a] *)
Definition num_neg (a : JsNumber) : JsNumber := PrimFloat.opp a.

(** [a + b], rounded to the nearest double *)
Definition num_add (a b : JsNumber) : JsNumber := PrimFloat.add a b.

(** [a - b], rounded to the nearest double *)
Definition num_sub (a b : JsNumber) : JsNumber := PrimFloat.sub a b.

(** [a === b] on numbers: [NaN] differs from itself, [-0] equals [0]. *)
Definition num_eq (a b : JsNumber) : bool := PrimFloat.eqb a b.

(** A value found in a parsed request body.  Objects and arrays are kept
    only by identity: the handlers never look inside one, they test it for
    truthiness and compare it with [===]. *)
Inductive JsValue : Type :=
| JUndefined
| JNull
| JBool (b : bool)
| JNumber (n : JsNumber)
| JString (s : string)
| JObject (ref : nat).

(** Truthiness, as tested by [!v]: among numbers, [0], [-0] and [NaN] are
    falsy. *)
Definition truthy (v : JsValue) : bool :=
  match v with
  | JUndefined | JNull => false
  | JBool b => b
  | JNumber n => negb (isNaN n) && negb (num_eq n 0%float)
  | JString s => negb (String.eqb s EmptyString)
  | JObject _ => true
  end.

(** [typeof v === 'number'] *)
Definition typeof_number (v : JsValue) : bool :=
  match v with
  | JNumber _ => true
  | _ => false
  end.

(** [a === b] *)
Definition strict_eq (a b : JsValue) : bool :=
  match a, b with
  | JUndefined, JUndefined => true
  | JNull, JNull => true
  | JBool x, JBool y => Bool.eqb x y
  | JNumber x, JNumber y => num_eq x y
  | JString x, JString y => String.eqb x y
  | JObject x, JObject y => Nat.eqb x y
  | _, _ => false
  end.

(** The number held by a value whose [typeof] is ['number']; the handlers
    use an amount arithmetically only behind that test. *)
Definition as_number (v : JsValue) : JsNumber :=
  match v with
  | JNumber n => n
  | _ => NaN
  end.

(** *** The document store *)

(** The lower-case form of a hexadecimal digit. *)
Definition lower_hex (c : ascii) : ascii :=
  let n := nat_of_ascii c in
  if (65 <=? n)%nat && (n <=? 70)%nat then ascii_of_nat (n + 32) else c.

Fixpoint lower (s : string) : string :=
  match s with
  | EmptyString => EmptyString
  | String c rest => String (lower_hex c) (lower rest)
  end.

(** Modelled from the spec: identifiers are opaque 24-digit hexadecimal
    names of documents.  The store library, which is not part of the
    sources, reads the digits of such a string without regard to letter
    case, so that two spellings of the same digits name the same document;
    a document's identifier is written in lower case.  For a value that is
    not a string of 24 hexadecimal digits the reading is the library's own
    (see [reading] below). *)
Definition castObjectId (v : JsValue) : option ObjectId :=
  match v with
  | JString s => if isObjectIdString s then Some (lower s) else None
  | _ => None
  end.

(** [models/User.js]: the two fields of the schema (timestamps left out). *)
Record User : Type := mkUser { name : string; balance : JsNumber }.

(** The [User] collection, by identifier in lower case. *)
Abbreviation Store := (gmap string User).

(** The store operations the handlers await.
    - [Exists id] is [User.exists({ _id: id })];
    - [FindOneAndUpdate id gte inc returnNew] is
      [User.findOneAndUpdate({ _id: id, balance: { $gte: g } },
      { $inc: { balance: inc } }, { new: returnNew })], the [balance]
      condition being absent when [gte] is [None];
    - [Save id n b] is [new User({ name: n, balance: b }).save()], [id]
      being the identifier the new document is given. *)
Inductive StoreCall : Type :=
| Exists (id : JsValue)
| FindOneAndUpdate (id : JsValue) (gte : option JsNumber) (inc : JsNumber)
                   (returnNew : bool)
| Save (id : ObjectId) (n : JsValue) (b : JsNumber).

(** [User.findByIdAndUpdate(id, { $inc: { balance: inc } }, { new })] is
    [findOneAndUpdate] on the identifier alone. *)
Definition FindByIdAndUpdate (id : JsValue) (inc : JsNumber) (returnNew : bool)
  : StoreCall :=
  FindOneAndUpdate id None inc returnNew.

(** What an awaited store call gives back: a raised error, [null], or a
    document. *)
Inductive Answer : Type :=
| Threw
| Null
| Doc (id : ObjectId) (u : User).

(** [!answer] for an answer that is not an error. *)
Definition found (a : Answer) : bool :=
  match a with
  | Doc _ _ => true
  | _ => false
  end.

Definition matches_gte (gte : option JsNumber) (b : JsNumber) : bool :=
  match gte with
  | None => true
  | Some g => num_ge b g
  end.

Definition inc_balance (inc : JsNumber) (u : User) : User :=
  mkUser (name u) (num_add (balance u) inc).

(** What surrounds one awaited store call: what the rest of the world did to
    the collection since the handler's previous call ([interference]),
    whether the call itself raises ([fails]: a store or network error), and
    what the store library makes of the values the sources leave to it:
    [reading] is the document it takes an identifier to name when that
    identifier is not a string of 24 hexadecimal digits, and [rendering] is
    the text it makes of a name that is not a string; [None] stands for a
    cast error.  A call that raises has not been applied. *)
Record Turn : Type :=
  mkTurn { interference : Store -> Store; fails : bool;
           reading : option ObjectId; rendering : option string }.

(** The document an identifier names in a query. *)
Definition resolve (t : Turn) (v : JsValue) : option ObjectId :=
  match castObjectId v with
  | Some i => Some i
  | None => reading t
  end.

(** The cast of a name to the schema's type [String]. *)
Definition castName (t : Turn) (v : JsValue) : option string :=
  match v with
  | JString s => Some s
  | _ => rendering t
  end.

(** The number in a filter or an update of [balance] is cast to the
    schema's type [Number]; the cast refuses [NaN]. *)
Definition cast_fails (gte : option JsNumber) (inc : JsNumber) : bool :=
  isNaN inc || match gte with Some g => isNaN g | None => false end.

(** Modelled from the spec: the atomic primitives of the account store
    (existence probe, conditional decrement, increment), each a single
    indivisible read-modify-write of one document.  An update that matches
    no document changes nothing and answers [null].  Before a call reaches
    the collection the store library casts its arguments to the types of
    the schema of [models/User.js] and raises when a cast fails: [NaN] is
    no [Number], and a document needs a non-empty name.  Balances are
    compared and incremented as doubles.  Saving adds a document under an
    identifier no document has yet. *)
Definition store_call (t : Turn) (c : StoreCall) (σ : Store) : Answer * Store :=
  match c with
  | Exists v =>
      match resolve t v with
      | None => (Threw, σ)
      | Some i =>
          match σ !! i with
          | Some u => (Doc i u, σ)
          | None => (Null, σ)
          end
      end
  | FindOneAndUpdate v gte inc returnNew =>
      if cast_fails gte inc then (Threw, σ)
      else
        match resolve t v with
        | None => (Threw, σ)
        | Some i =>
            match σ !! i with
            | Some u =>
                if matches_gte gte (balance u)
                then (Doc i (if returnNew then inc_balance inc u else u),
                      <[i := inc_balance inc u]> σ)
                else (Null, σ)
            | None => (Null, σ)
            end
        end
  | Save i n b =>
      match castName t n with
      | None => (Threw, σ)
      | Some s =>
          if String.eqb s EmptyString || isNaN b then (Threw, σ)
          else
            match σ !! i with
            | Some _ => (Threw, σ)
            | None => (Doc i (mkUser s b), <[i := mkUser s b]> σ)
            end
      end
  end.

(** *** Handlers *)

Inductive Body : Type :=
| Message (message : string)
| TransferSuccessful (from_id : ObjectId) (from_newBalance : JsNumber)
                     (to_id : ObjectId) (to_newBalance : JsNumber)
| UserCreated (id : ObjectId) (user : User).

(** [res.status(s).json(b)]: the status and the value handed to [json]; how
    that value is written out as text is not part of the embedding. *)
Record Response : Type := json { status : nat; body : Body }.

(** An [async] handler: it returns a response, or raises, or awaits a store
    call and goes on with its answer. *)
Inductive Prog : Type :=
| Ret (r : Response)
| Throw
| Call (c : StoreCall) (k : Answer -> Prog).

(** [await c]: a raised error leaves the enclosing block. *)
Definition await (c : StoreCall) (k : Answer -> Prog) : Prog :=
  Call c (fun a => match a with Threw => Throw | _ => k a end).

(** [try { p } catch (e) { h }] *)
Fixpoint try_catch (p : Prog) (h : Prog) : Prog :=
  match p with
  | Ret r => Ret r
  | Throw => h
  | Call c k => Call c (fun a => try_catch (k a) h)
  end.

Record TransferBody : Type :=
  mkTransfer { fromUserId : JsValue; toUserId : JsValue; amount : JsValue }.

(** The [catch (creditErr)] block of [POST /transfer]: one refund under its
    own [try]; the final [return] cannot raise, so it is the continuation
    of the refund. *)
Definition credit_error_handler (from : JsValue) (amt : JsNumber) : Prog :=
  try_catch
    (await (FindByIdAndUpdate from amt true)
       (fun _refund => Ret (json 500 (Message msg_refunded))))
    (Ret (json 500 (Message msg_critical))).

(** The inner [try] block of [POST /transfer]: credit the recipient; when
    no recipient document is found, refund the sender. *)
Definition credit_block (from to : JsValue) (amt : JsNumber)
    (sender_id : ObjectId) (senderUpdate : User) : Prog :=
  await (FindByIdAndUpdate to amt true)
    (fun recipientUpdate =>
       match recipientUpdate with
       | Doc rid r =>
           Ret (json 200
                  (TransferSuccessful sender_id (balance senderUpdate)
                                      rid (balance r)))
       | _ =>
           await (FindByIdAndUpdate from amt false)
             (fun _ => Ret (json 500 (Message msg_rolled_back)))
       end).

(** What follows the input validation inside the outer [try]. *)
Definition transfer_checked (from to : JsValue) (amt : JsNumber) : Prog :=
  (* Promise.all: both existence queries are issued *)
  Call (Exists from) (fun fromUserExists =>
  Call (Exists to) (fun toUserExists =>
    match fromUserExists, toUserExists with
    | Threw, _ | _, Threw => Throw
    | _, _ =>
        if negb (found fromUserExists)
        then Ret (json 404 (Message msg_no_sender))
        else if negb (found toUserExists)
        then Ret (json 404 (Message msg_no_recipient))
        else
          await (FindOneAndUpdate from (Some amt) (num_neg amt) true)
            (fun senderUpdate =>
               match senderUpdate with
               | Doc sid s =>
                   try_catch (credit_block from to amt sid s)
                             (credit_error_handler from amt)
               | _ => Ret (json 409 (Message msg_insufficient))
               end)
    end)).

(** The "basic validation" of [POST /transfer]: the response returned by
    the first test that fails, if one does. *)
Definition validate (req : TransferBody) : option Response :=
  if negb (truthy (fromUserId req)) || negb (truthy (toUserId req))
     || negb (typeof_number (amount req))
  then Some (json 400 (Message msg_provide))
  else if strict_eq (fromUserId req) (toUserId req)
  then Some (json 400 (Message msg_same))
  else if num_le (as_number (amount req)) 0%float
  then Some (json 400 (Message msg_amount))
  else None.

(** [app.post('/transfer', ...)] *)
Definition transfer (req : TransferBody) : Prog :=
  try_catch
    (match validate req with
     | Some r => Ret r
     | None =>
         transfer_checked (fromUserId req) (toUserId req)
                          (as_number (amount req))
     end)
    (Ret (json 500 (Message msg_server_error))).

Record UserBody : Type := mkUserBody { body_name : JsValue; body_balance : JsValue }.

(** [app.post('/users', ...)]; [fresh] is the identifier [new User] gives
    the document. *)
Definition createUser (fresh : ObjectId) (req : UserBody) : Prog :=
  try_catch
    (if negb (truthy (body_name req)) || negb (typeof_number (body_balance req))
     then Ret (json 400 (Message msg_provide_user))
     else
       await (Save fresh (body_name req) (as_number (body_balance req)))
         (fun saved =>
            match saved with
            | Doc i u => Ret (json 201 (UserCreated i u))
            | _ => Throw
            end))
    (Ret (json 500 (Message msg_server_error))).

(** *** Running a handler against the store *)

Definition quiet : Turn := mkTurn (fun σ => σ) false None None.

(** A store or network error on an otherwise undisturbed call. *)
Definition outage : Turn := mkTurn (fun σ => σ) true None None.

Definition answer (t : Turn) (c : StoreCall) (σ : Store) : Answer * Store :=
  if fails t then (Threw, interference t σ)
  else store_call t c (interference t σ).

Inductive Outcome : Type :=
| Responded (r : Response)
| Unhandled.

Record Result : Type :=
  mkResult { outcome : Outcome; final : Store;
             trace : list (StoreCall * Answer) }.

Definition logged (ca : StoreCall * Answer) (r : Result) : Result :=
  mkResult (outcome r) (final r) (ca :: trace r).

(** The handler runs to its end; the [n]-th store call meets the [n]-th turn
    of the schedule, and a quiet turn once the schedule is used up. *)
Fixpoint run (p : Prog) (sched : list Turn) (σ : Store) : Result :=
  match p with
  | Ret r => mkResult (Responded r) σ []
  | Throw => mkResult Unhandled σ []
  | Call c k =>
      let t := hd quiet sched in
      let a := answer t c σ in
      logged (c, a.1) (run (k a.1) (tl sched) a.2)
  end.

(** The turn leaves document [x] as it is. *)
Definition leaves (x : ObjectId) (t : Turn) : Prop :=
  ∀ σ : Store, interference t σ !! x = σ !! x.

(** The turn neither disturbs the collection nor makes the call raise. *)
Definition undisturbed (t : Turn) : Prop :=
  fails t = false ∧ ∀ σ : Store, interference t σ = σ.

(** A store call that changed a document: an update answered with one. *)
Definition applied (ca : StoreCall * Answer) : bool :=
  match ca with
  | (FindOneAndUpdate _ _ _ _, Doc _ _) => true
  | (Save _ _ _, Doc _ _) => true
  | _ => false
  end.

(** *** Outcomes in the words of the specification *)

Inductive TransferResult : Type :=
| Completed (fromBalance toBalance : JsNumber)
| Rejected (reason : Reason)
| PartiallyFailed (compensated : bool).

(** The result a response stands for: the status class, and for status 500
    the message that tells a refunded transfer from the critical one.  The
    generic ["Server error"] stands for none of them. *)
Definition classify (r : Response) : option TransferResult :=
  match status r, body r with
  | 200%nat, TransferSuccessful _ fb _ tb => Some (Completed fb tb)
  | 400%nat, _ => Some (Rejected InvalidRequest)
  | 404%nat, _ => Some (Rejected AccountNotFound)
  | 409%nat, _ => Some (Rejected InsufficientFunds)
  | 500%nat, Message m =>
      if String.eqb m msg_critical then Some (PartiallyFailed false)
      else if String.eqb m msg_rolled_back || String.eqb m msg_refunded
      then Some (PartiallyFailed true)
      else None
  | _, _ => None
  end.

Definition result_of (o : Outcome) : option TransferResult :=
  match o with
  | Responded r => classify r
  | Unhandled => None
  end.

(** *** Paths through a handler *)

(** [path p tr o]: answering the handler's calls as in [tr] leads it to
    [o]. *)
Inductive path : Prog -> list (StoreCall * Answer) -> Outcome -> Prop :=
| path_ret r : path (Ret r) [] (Responded r)
| path_throw : path Throw [] Unhandled
| path_call c k a tr o :
    path (k a) tr o -> path (Call c k) ((c, a) :: tr) o.

(** The effect of one logged call on document [x]. *)
Definition effect_on (x : ObjectId) (ca : StoreCall * Answer)
    (d : option User) : option User :=
  match ca with
  | (FindOneAndUpdate _ _ inc _, Doc i _) =>
      if String.eqb i x then inc_balance inc <$> d else d
  | (Save _ _ _, Doc i u) => if String.eqb i x then Some u else d
  | _ => d
  end.

Section TransferPaths.

Variable req : TransferBody.

Let from := fromUserId req.
Let to := toUserId req.
Let amt := as_number (amount req).

Let probe_from := Exists from.
Let probe_to := Exists to.
Let debit := FindOneAndUpdate from (Some amt) (num_neg amt) true.
Let credit := FindByIdAndUpdate to amt true.
Let refund_unchecked := FindByIdAndUpdate from amt false.
Let refund := FindByIdAndUpdate from amt true.

(** The ways through [POST /transfer], by the answers met. *)
Inductive shape : list (StoreCall * Answer) -> Response -> Prop :=
| sh_invalid r :
    validate req = Some r -> shape [] r
| sh_probe_error a1 a2 :
    validate req = None -> a1 = Threw ∨ a2 = Threw ->
    shape [(probe_from, a1); (probe_to, a2)]
          (json 500 (Message msg_server_error))
| sh_no_sender a2 :
    validate req = None -> a2 ≠ Threw ->
    shape [(probe_from, Null); (probe_to, a2)]
          (json 404 (Message msg_no_sender))
| sh_no_recipient i u :
    validate req = None ->
    shape [(probe_from, Doc i u); (probe_to, Null)]
          (json 404 (Message msg_no_recipient))
| sh_debit_error i u j w :
    validate req = None ->
    shape [(probe_from, Doc i u); (probe_to, Doc j w); (debit, Threw)]
          (json 500 (Message msg_server_error))
| sh_insufficient i u j w :
    validate req = None ->
    shape [(probe_from, Doc i u); (probe_to, Doc j w); (debit, Null)]
          (json 409 (Message msg_insufficient))
| sh_completed i u j w sid s rid r :
    validate req = None ->
    shape [(probe_from, Doc i u); (probe_to, Doc j w);
           (debit, Doc sid s); (credit, Doc rid r)]
          (json 200 (TransferSuccessful sid (balance s) rid (balance r)))
| sh_rolled_back i u j w sid s a :
    validate req = None -> a ≠ Threw ->
    shape [(probe_from, Doc i u); (probe_to, Doc j w);
           (debit, Doc sid s); (credit, Null); (refund_unchecked, a)]
          (json 500 (Message msg_rolled_back))
| sh_second_refund i u j w sid s a :
    validate req = None -> a ≠ Threw ->
    shape [(probe_from, Doc i u); (probe_to, Doc j w);
           (debit, Doc sid s); (credit, Null); (refund_unchecked, Threw);
           (refund, a)]
          (json 500 (Message msg_refunded))
| sh_second_refund_error i u j w sid s :
    validate req = None ->
    shape [(probe_from, Doc i u); (probe_to, Doc j w);
           (debit, Doc sid s); (credit, Null); (refund_unchecked, Threw);
           (refund, Threw)]
          (json 500 (Message msg_critical))
| sh_refunded i u j w sid s a :
    validate req = None -> a ≠ Threw ->
    shape [(probe_from, Doc i u); (probe_to, Doc j w);
           (debit, Doc sid s); (credit, Threw); (refund, a)]
          (json 500 (Message msg_refunded))
| sh_critical i u j w sid s :
    validate req = None ->
    shape [(probe_from, Doc i u); (probe_to, Doc j w);
           (debit, Doc sid s); (credit, Threw); (refund, Threw)]
          (json 500 (Message msg_critical)).

End TransferPaths.

(** [replay sched σ tr σ']: the answers logged in [tr] are those the store
    gave, turn after turn, from [σ] to [σ']. *)
Inductive replay : list Turn -> Store -> list (StoreCall * Answer) -> Store -> Prop :=
| replay_nil sched σ : replay sched σ [] σ
| replay_cons sched σ c a σ1 tr σ' :
    answer (hd quiet sched) c σ = (a, σ1) ->
    replay (tl sched) σ1 tr σ' ->
    replay sched σ ((c, a) :: tr) σ'.

(** *** The read handler *)

Inductive ReadBody : Type :=
| ReadMessage (message : string)
| BalanceOf (id : ObjectId) (name : string) (balance : JsNumber).

(** [res.status(s).json(b)], and [res.json(b)] with status 200. *)
Record ReadResponse : Type :=
  read_json { read_status : nat; read_body : ReadBody }.

(** [User.findById(id).lean()]: the read of one document by identifier.  In
    this model the existence probe already answers with the document it
    finds, so the two reads are the same store call. *)
Definition FindById (id : JsValue) : StoreCall := Exists id.

(** [app.get('/users/:id/balance', ...)]: one awaited read inside a [try];
    [id] is the route parameter, a string.  The handler meets one turn. *)
Definition getBalance (id : string) (t : Turn) (σ : Store)
  : ReadResponse * Store :=
  let a := answer t (FindById (JString id)) σ in
  (match a.1 with
   | Threw => read_json 500 (ReadMessage msg_server_error)
   | Null => read_json 404 (ReadMessage msg_user_not_found)
   | Doc i u => read_json 200 (BalanceOf i (name u) (balance u))
   end,
   a.2).

(** *** Scenarios *)

Definition alice : ObjectId := "65f0a1b2c3d4e5f601234567".
Definition bob : ObjectId := "65f0a1b2c3d4e5f60123abcd".

(** The same digits as [bob], in upper case. *)
Definition bob_upper : string := "65F0A1B2C3D4E5F60123ABCD".

(** An identifier no document has yet. *)
Definition carol : ObjectId := "65f0a1b2c3d4e5f6012345ff".

Definition accounts (a b : JsNumber) : Store :=
  <[alice := mkUser "Alice" a]> (<[bob := mkUser "Bob" b]> ∅).

(** The collection [seed.js] leaves behind. *)
Definition seeded : Store := accounts 1000%float 500%float.

Definition pay (a : JsNumber) : TransferBody :=
  mkTransfer (JString alice) (JString bob) (JNumber a).

Definition balance_of (x : ObjectId) (σ : Store) : option JsNumber :=
  balance <$> σ !! x.

(** Another request gives the sender 300 between the existence checks and
    the debit. *)
Definition deposit_300 : Turn :=
  mkTurn (fun σ => <[alice := mkUser "Alice" 1300%float]> σ) false None None.

(** The largest integer up to which every integer is a double. *)
Definition two53 : JsNumber := 9007199254740992%float.

End Doubles.

(** * Properties *)

(** ** Numbers *)

Lemma num_le_Int (a b : JsNumber) :
  num_le a b = true -> ∃ x y, a = Int x ∧ b = Int y ∧ x <= y.
Proof.
  destruct a as [|x], b as [|y]; simpl; try discriminate.
  intros H. exists x, y. repeat split. lia.
Qed.


(** ** Store calls *)

Lemma answer_fails (t : Turn) (c : StoreCall) (σ : Store) :
  fails t = true -> answer t c σ = (Threw, interference t σ).
Proof. unfold answer. intros ->. reflexivity. Qed.




Lemma answer_plausible (t : Turn) (c : StoreCall) (σ : Store) :
  plausible c (answer t c σ).1.
Proof.
  unfold plausible, answer. destruct (fails t); [left; reflexivity|].
  right. eexists. reflexivity.
Qed.

(** What the answer to a call tells about document [x] afterwards. *)
Lemma answer_effect (t : Turn) (c : StoreCall) (σ : Store) (x : ObjectId) :
  (answer t c σ).2 !! x
  = effect_on x (c, (answer t c σ).1) (interference t σ !! x).
Proof.
  unfold answer. destruct (fails t); [destruct c; reflexivity|].
  destruct c as [v|v gte inc new|i u]; simpl.
  - destruct (castObjectId v) as [i|]; [|reflexivity].
    destruct (_ !! i); reflexivity.
  - destruct (castObjectId v) as [i|]; [|reflexivity].
    destruct (_ !! i) as [u0|] eqn:E; [|reflexivity].
    destruct (matches_gte _ _); [|reflexivity]. simpl.
    destruct (String.eqb_spec i x) as [->|Hne].
    + rewrite lookup_insert_eq, E. reflexivity.
    + rewrite lookup_insert_ne by exact Hne. reflexivity.
  - destruct (String.eqb_spec i x) as [->|Hne].
    + apply lookup_insert_eq.
    + apply lookup_insert_ne. exact Hne.
Qed.

(** ** Runs *)

Lemma run_path (p : Prog) (sched : list Turn) (σ : Store) :
  path p (trace (run p sched σ)) (outcome (run p sched σ)).
Proof.
  revert sched σ. induction p as [r| |c k IH]; intros sched σ; simpl.
  - constructor.
  - constructor.
  - constructor. apply IH.
Qed.

Lemma run_plausible (p : Prog) (sched : list Turn) (σ : Store) :
  Forall (fun ca => plausible ca.1 ca.2) (trace (run p sched σ)).
Proof.
  revert sched σ. induction p as [r| |c k IH]; intros sched σ; simpl.
  - constructor.
  - constructor.
  - constructor; [apply answer_plausible | apply IH].
Qed.

(** The net effect of a run on a document that nothing else touches is the
    composition of the effects of its own logged calls. *)
Lemma run_effect (p : Prog) (sched : list Turn) (σ : Store) (x : ObjectId) :
  Forall (leaves x) sched ->
  final (run p sched σ) !! x
  = fold_left (fun d ca => effect_on x ca d) (trace (run p sched σ)) (σ !! x).
Proof.
  revert sched σ. induction p as [r| |c k IH]; intros sched σ Hl; simpl.
  - reflexivity.
  - reflexivity.
  - assert (Ht : leaves x (hd quiet sched)).
    { destruct sched as [|t s]; [intros ?; reflexivity|].
      simpl. eapply Forall_inv; eauto. }
    assert (Hs : Forall (leaves x) (tl sched)).
    { destruct sched as [|t s]; [constructor|]. simpl.
      eapply Forall_inv_tail; eauto. }
    rewrite IH by exact Hs. rewrite answer_effect. rewrite Ht. reflexivity.
Qed.


(** ** The paths of a transfer *)

Lemma transfer_shape (req : TransferBody) (tr : list (StoreCall * Answer))
    (o : Outcome) :
  path (transfer req) tr o -> ∃ r, o = Responded r ∧ shape req tr r.
Proof.
  unfold transfer. destruct (validate req) as [r|] eqn:V; cbn.
  - intros H. inversion H; subst. eexists. split; [reflexivity|].
    constructor. exact V.
  - intros H.
    repeat match goal with
      | H : path (Call _ _) _ _ |- _ => inversion H; subst; clear H
      | H : path (Ret _) _ _ |- _ => inversion H; subst; clear H
      | H : path Throw _ _ |- _ => inversion H; subst; clear H
      | H : path ?p _ _ |- _ =>
          match p with
          | context [match ?a with Threw => _ | Null => _ | Doc _ _ => _ end] =>
              is_var a; destruct a; cbn in H
          end
      | H : path _ _ _ |- _ => progress cbn in H
      end;
    (eexists; split; [reflexivity|]);
    try (econstructor; solve [eauto | discriminate | congruence]).
Qed.

(** ** Replaying a trace *)



Lemma no_effect (x : ObjectId) (tr : list (StoreCall * Answer)) (d : option User) :
  Forall (fun ca => applied ca = false) tr ->
  fold_left (fun d ca => effect_on x ca d) tr d = d.
Proof.
  revert d. induction tr as [|[c a] tr IH]; intros d H; simpl.
  - reflexivity.
  - inversion H as [|? ? Hca Htr]; subst. rewrite IH by exact Htr.
    destruct c, a; simpl in *; try reflexivity; discriminate.
Qed.

(** ** Validation *)

Lemma validate_status (req : TransferBody) (r : Response) :
  validate req = Some r -> status r = 400%nat.
Proof.
  unfold validate.
  repeat match goal with |- context [if ?b then _ else _] => destruct b end;
    intros [= <-]; reflexivity.
Qed.

Lemma validate_None (req : TransferBody) :
  validate req = None ->
  truthy (fromUserId req) = true ∧ truthy (toUserId req) = true
  ∧ typeof_number (amount req) = true
  ∧ strict_eq (fromUserId req) (toUserId req) = false
  ∧ num_le (as_number (amount req)) (Int 0) = false.
Proof.
  unfold validate.
  destruct (truthy (fromUserId req)), (truthy (toUserId req)),
    (typeof_number (amount req)); simpl; try discriminate.
  destruct (strict_eq _ _); [discriminate|].
  destruct (num_le _ _); [discriminate|]. auto.
Qed.

(** Every run of a transfer ends in a response and has one of the shapes. *)
Lemma run_shape (req : TransferBody) (sched : list Turn) (σ : Store) :
  ∃ r, outcome (run (transfer req) sched σ) = Responded r
       ∧ shape req (trace (run (transfer req) sched σ)) r.
Proof. apply transfer_shape, run_path. Qed.

(** A debit answered with a document was a decrement by a positive amount
    the balance covered. *)
Lemma debit_applied_positive (v : JsValue) (g : JsNumber) (new : bool)
    (i : ObjectId) (u : User) :
  plausible (FindOneAndUpdate v (Some g) (num_neg g) new) (Doc i u) ->
  num_le g (Int 0) = false ->
  ∃ a, g = Int a ∧ 0 < a.
Proof.
  intros [H|[σ H]] Hpos; [discriminate|].
  simpl in H. destruct (castObjectId v) as [j|]; [|discriminate].
  destruct (σ !! j) as [u0|]; [|discriminate].
  destruct (num_ge (balance u0) g) eqn:G; [|discriminate].
  unfold num_ge in G.
  apply num_le_Int in G as (a & b & -> & _ & _).
  exists a. split; [reflexivity|]. simpl in Hpos. lia.
Qed.

(** ** Zero-effect rejection *)

Lemma rejected_shape (req : TransferBody) (tr : list (StoreCall * Answer))
    (r : Response) (why : Reason) :
  shape req tr r -> classify r = Some (Rejected why) ->
  Forall (fun ca => applied ca = false) tr.
Proof.
  intros Hs Hc.
  destruct Hs; simpl in Hc; try discriminate;
    repeat constructor.
Qed.

(** C1.  A transfer request answered with a rejection (400 invalid request,
    404 account not found, 409 insufficient funds, the last one being the
    failed conditional debit) has applied no update: none of its store calls
    changed a document, and every document that nothing else touched during
    the call, the two named accounts among them, is exactly as before. *)
Theorem zero_effect_rejection (req : TransferBody) (sched : list Turn)
    (σ : Store) (why : Reason) :
  result_of (outcome (run (transfer req) sched σ)) = Some (Rejected why) ->
  Forall (fun ca => applied ca = false) (trace (run (transfer req) sched σ))
  ∧ ∀ x : ObjectId, Forall (leaves x) sched ->
      final (run (transfer req) sched σ) !! x = σ !! x.
Proof.
  intros H.
  destruct (run_shape req sched σ) as (r & Ho & Hs).
  rewrite Ho in H. simpl in H.
  pose proof (rejected_shape _ _ _ _ Hs H) as Hna.
  split; [exact Hna|].
  intros x Hx. rewrite run_effect by exact Hx. apply no_effect. exact Hna.
Qed.

Lemma zero_effect_rejection_witness :
  final (run (transfer (Scenario.pay 2000)) [] Scenario.seeded) !! Scenario.alice
  = Scenario.seeded !! Scenario.alice.
Proof.
  refine (proj2 (zero_effect_rejection (Scenario.pay 2000) [] Scenario.seeded
                   InsufficientFunds _) Scenario.alice _).
  - vm_compute. reflexivity.
  - constructor.
Defined.

(** ** Invalid requests *)


Lemma validate_Some (req : TransferBody) :
  (∃ r, validate req = Some r) ↔ fails_validation req.
Proof.
  unfold fails_validation. split.
  - intros [r H]. destruct (validate req) eqn:V in H; [|discriminate].
    clear H. unfold validate in V.
    destruct (truthy (fromUserId req)); [|auto].
    destruct (truthy (toUserId req)); [|auto].
    destruct (typeof_number (amount req)); [|auto].
    destruct (strict_eq _ _); [auto|].
    destruct (num_le _ _); [auto 6|]. discriminate.
  - intros H. destruct (validate req) as [r|] eqn:V; [eauto|].
    apply validate_None in V as (H1 & H2 & H3 & H4 & H5).
    rewrite H1, H2, H3, H4, H5 in H.
    repeat destruct H as [H|H]; discriminate.
Qed.

Lemma invalid_shape (req : TransferBody) (tr : list (StoreCall * Answer))
    (r : Response) :
  shape req tr r ->
  classify r = Some (Rejected InvalidRequest) ->
  validate req = Some r ∧ tr = [].
Proof.
  intros Hs Hc. destruct Hs; simpl in Hc; try discriminate. auto.
Qed.

(** C7, as amended.  A transfer request is answered 400 exactly when one of
    the handler's own tests fails: an identifier is missing or falsy, the
    amount is not of number type, the two identifiers are strictly equal,
    or [amount <= 0] holds.  The answer is then given before any store call,
    with the collection as it was.  The syntax of a non-empty identifier is
    not among the tests. *)
Theorem invalid_request_exactly (req : TransferBody) (sched : list Turn)
    (σ : Store) :
  (result_of (outcome (run (transfer req) sched σ))
     = Some (Rejected InvalidRequest)
   ↔ fails_validation req)
  ∧ (fails_validation req ->
     trace (run (transfer req) sched σ) = []
     ∧ final (run (transfer req) sched σ) = σ).
Proof.
  split; [split|].
  - intros H. destruct (run_shape req sched σ) as (r & Ho & Hs).
    rewrite Ho in H. simpl in H.
    apply validate_Some. exists r. eapply invalid_shape; eauto.
  - intros H. apply validate_Some in H as [r V].
    unfold transfer. rewrite V. simpl.
    apply validate_status in V. unfold classify. rewrite V. reflexivity.
  - intros H. apply validate_Some in H as [r V].
    unfold transfer. rewrite V. simpl. auto.
Qed.


(** C7, as stated, fails: a request whose identifiers are syntactically
    invalid is malformed, yet it passes validation, two store calls are
    made, and the answer is the generic 500, not 400. *)
Lemma ill_formed_ids_not_400 :
  malformed Scenario.ill_formed_ids = true
  ∧ validate Scenario.ill_formed_ids = None
  ∧ outcome (run (transfer Scenario.ill_formed_ids) [] Scenario.seeded)
    = Responded (json 500 (Message msg_server_error))
  ∧ result_of (outcome (run (transfer Scenario.ill_formed_ids) [] Scenario.seeded))
    ≠ Some (Rejected InvalidRequest)
  ∧ length (trace (run (transfer Scenario.ill_formed_ids) [] Scenario.seeded)) = 2%nat.
Proof. vm_compute. repeat split; discriminate. Qed.

(** ** Classification of outcomes *)

Lemma generic_shape (req : TransferBody) (tr : list (StoreCall * Answer))
    (r : Response) :
  shape req tr r ->
  classify r = None ->
  r = json 500 (Message msg_server_error)
  ∧ Forall (fun ca => applied ca = false) tr
  ∧ ∃ c, In (c, Threw) tr.
Proof.
  intros Hs Hc. destruct Hs; try (vm_compute in Hc; discriminate).
  - apply validate_status in H. unfold classify in Hc. rewrite H in Hc.
    discriminate.
  - split; [reflexivity|]. split; [repeat constructor|].
    destruct H0 as [-> | ->]; eexists; simpl; eauto.
  - split; [reflexivity|]. split; [repeat constructor|].
    eexists; simpl; eauto.
Qed.

(** C8, as amended.  Every transfer request is answered, and the answer is
    either one of the classified results (completed, invalid request,
    account not found, insufficient funds, credit failure compensated, credit
    failure uncompensated) or the generic 500 ["Server error"].  The generic
    answer is given only when a store call raised before any update was
    applied; once the debit has been applied the answer is always a
    classified one, so the uncompensated case is never reported as the
    generic error. *)
Theorem outcome_classified_or_generic (req : TransferBody)
    (sched : list Turn) (σ : Store) :
  ∃ r, outcome (run (transfer req) sched σ) = Responded r
    ∧ ((∃ res, classify r = Some res)
       ∨ (r = json 500 (Message msg_server_error)
          ∧ Forall (fun ca => applied ca = false)
                   (trace (run (transfer req) sched σ))
          ∧ ∃ c, In (c, Threw) (trace (run (transfer req) sched σ)))).
Proof.
  destruct (run_shape req sched σ) as (r & Ho & Hs).
  exists r. split; [exact Ho|].
  destruct (classify r) as [res|] eqn:Hc; [left; eauto|].
  right. eapply generic_shape; eauto.
Qed.

(** C8, as stated, fails: when the store raises on an existence probe the
    request is answered with the generic 500, which is none of the five
    kinds. *)
Lemma store_outage_is_generic_500 :
  outcome (run (transfer (Scenario.pay 200)) [outage] Scenario.seeded)
  = Responded (json 500 (Message msg_server_error))
  ∧ result_of (outcome (run (transfer (Scenario.pay 200)) [outage]
                            Scenario.seeded)) = None.
Proof. vm_compute. split; reflexivity. Qed.

(** ** Identifiers *)


Lemma strict_eq_sym (a b : JsValue) : strict_eq a b = strict_eq b a.
Proof.
  destruct a as [| |x|x|x|x], b as [| |y|y|y|y]; simpl; try reflexivity.
  - destruct x, y; reflexivity.
  - destruct x, y; simpl; try reflexivity. apply Z.eqb_sym.
  - apply String.eqb_sym.
  - apply Nat.eqb_sym.
Qed.

Lemma strict_eq_truthy (a : JsValue) : truthy a = true -> strict_eq a a = true.
Proof.
  destruct a as [| |x|x|x|x]; simpl; try discriminate; intros H.
  - rewrite H. reflexivity.
  - destruct x; [discriminate|]. simpl. apply Z.eqb_refl.
  - apply String.eqb_refl.
  - apply Nat.eqb_refl.
Qed.

(** ** More on store calls *)






(** ** Compensation *)

(** The amount of a transfer whose debit was applied is a positive number. *)
Lemma debit_logged_positive (req : TransferBody) (e1 e2 : StoreCall * Answer)
    (sid : ObjectId) (s : User) (tr : list (StoreCall * Answer)) :
  validate req = None ->
  Forall (fun ca => plausible ca.1 ca.2)
    (e1 :: e2 ::
     (FindOneAndUpdate (fromUserId req) (Some (as_number (amount req)))
        (num_neg (as_number (amount req))) true, Doc sid s) :: tr) ->
  ∃ a, as_number (amount req) = Int a ∧ 0 < a.
Proof.
  intros V Hp. apply validate_None in V as (_ & _ & _ & _ & T5).
  apply Forall_inv_tail, Forall_inv_tail, Forall_inv in Hp. simpl in Hp.
  eapply debit_applied_positive; eauto.
Qed.


(** C5, as amended.  After a credit failure the run ends with a
    compensating increment on the sender, and the result is the critical
    [PartiallyFailed{compensated:false}] exactly when that call raised an
    error; when it returned, with the sender's document or with [null], the
    result is [PartiallyFailed{compensated:true}].  The increment was applied
    exactly when the call was answered with the sender's document, so a
    sender that cannot be found at compensation time is reported as
    compensated although nothing was given back. *)
Theorem compensation_reported (req : TransferBody) (sched : list Turn)
    (σ : Store) :
  credit_failed req (run (transfer req) sched σ) = true ->
  ∃ c a,
    last (trace (run (transfer req) sched σ)) = Some (c, a)
    ∧ is_refund req (c, a) = true
    ∧ result_of (outcome (run (transfer req) sched σ))
      = Some (PartiallyFailed (reported_compensated a))
    ∧ (reported_compensated a = false ->
       outcome (run (transfer req) sched σ)
       = Responded (json 500 (Message msg_critical)))
    ∧ compensation_applied req (run (transfer req) sched σ) = found a.
Proof.
  intros Hc.
  destruct (run_shape req sched σ) as (r & Ho & Hs).
  pose proof (run_plausible (transfer req) sched σ) as Hp.
  unfold credit_failed, compensation_applied in *.
  rewrite Ho. clear Ho.
  inversion Hs; subst; clear Hs;
    match goal with H : _ = trace _ |- _ => rewrite <- H in *; clear H end;
    unfold FindByIdAndUpdate in *;
    try (simpl in Hc; rewrite ?andb_false_r in Hc; discriminate).
  all: match goal with V : validate _ = None |- _ =>
         destruct (debit_logged_positive _ _ _ _ _ _ V Hp) as (am & Eam & Hpos);
         apply validate_None in V as (T1 & T2 & _ & T4 & _)
       end.
  all: pose proof (strict_eq_truthy _ T1) as Eff.
  all: pose proof T4 as Etf; rewrite strict_eq_sym in Etf.
  all: clear Hc Hp.
  all: try match goal with Ha : ?a ≠ Threw |- _ =>
         destruct a as [| |i' u']; [congruence| |]; clear Ha end.
  all: eexists _, _; split; [reflexivity|].
  all: unfold is_refund, is_credit; simpl;
       rewrite ?Eff, ?Etf, ?Eam; simpl; rewrite ?Z.eqb_refl; simpl.
  all: repeat split; try (vm_compute; reflexivity); intros; discriminate.
Qed.

Lemma compensation_reported_witness :
  result_of (outcome (run (transfer (Scenario.pay 200))
                        [quiet; quiet; quiet; outage; outage] Scenario.seeded))
  = Some (PartiallyFailed false).
Proof.
  destruct (compensation_reported (Scenario.pay 200)
              [quiet; quiet; quiet; outage; outage] Scenario.seeded)
    as (c & a & Hl & _ & Hr & _).
  - vm_compute. reflexivity.
  - vm_compute in Hl. injection Hl as <- <-. exact Hr.
Defined.

(** C5, as stated, fails: [seed.js] empties the collection between the debit
    and the credit; neither the recipient nor the sender is found, the
    refund answers [null], nothing is given back, and the transfer is still
    reported as rolled back, that is as compensated. *)
Lemma sender_not_found_reported_compensated :
  last_answer (run (transfer (Scenario.pay 200))
                 [quiet; quiet; quiet; deleteMany_all] Scenario.seeded)
  = Some Null
  ∧ compensation_applied (Scenario.pay 200)
      (run (transfer (Scenario.pay 200))
         [quiet; quiet; quiet; deleteMany_all] Scenario.seeded) = false
  ∧ outcome (run (transfer (Scenario.pay 200))
               [quiet; quiet; quiet; deleteMany_all] Scenario.seeded)
    = Responded (json 500 (Message msg_rolled_back))
  ∧ result_of (outcome (run (transfer (Scenario.pay 200))
                          [quiet; quiet; quiet; deleteMany_all]
                          Scenario.seeded))
    = Some (PartiallyFailed true).
Proof. vm_compute. repeat split; reflexivity. Qed.

(** ** The number of compensation attempts *)

Lemma refund_attempts_bounds (req : TransferBody) (sched : list Turn)
    (σ : Store) :
  credit_failed req (run (transfer req) sched σ) = true ->
  (1 <= refund_attempts req (run (transfer req) sched σ) <= 2)%nat.
Proof.
  intros Hc.
  destruct (run_shape req sched σ) as (r & Ho & Hs).
  pose proof (run_plausible (transfer req) sched σ) as Hp.
  unfold credit_failed, refund_attempts in *. clear Ho.
  inversion Hs; subst; clear Hs;
    match goal with H : _ = trace _ |- _ => rewrite <- H in *; clear H end;
    unfold FindByIdAndUpdate in *;
    try (simpl in Hc; rewrite ?andb_false_r in Hc; discriminate).
  all: match goal with V : validate _ = None |- _ =>
         destruct (debit_logged_positive _ _ _ _ _ _ V Hp) as (am & Eam & Hpos);
         apply validate_None in V as (T1 & T2 & _ & T4 & _)
       end.
  all: pose proof (strict_eq_truthy _ T1) as Eff.
  all: pose proof T4 as Etf; rewrite strict_eq_sym in Etf.
  all: unfold is_refund; simpl;
       rewrite ?Eff, ?Etf, ?Eam; simpl; rewrite ?Z.eqb_refl; simpl; lia.
Qed.

(** C4.  Exactly one compensating increment per failed credit, and no retry:
    this fails on the run below.  The recipient is removed after the
    existence checks, so the credit finds nothing, and the first refund
    raises; that refund sits inside the [try] whose [catch] is meant for
    credit errors, so the handler issues the refund a second time. *)
Theorem refund_attempted_twice :
  map fst (trace (run (transfer (Scenario.pay 200))
                    [quiet; quiet; quiet; removed Scenario.bob; outage]
                    Scenario.seeded))
  = [ Exists (JString Scenario.alice);
      Exists (JString Scenario.bob);
      FindOneAndUpdate (JString Scenario.alice) (Some (Int 200)) (Int (-200)) true;
      FindByIdAndUpdate (JString Scenario.bob) (Int 200) true;
      FindByIdAndUpdate (JString Scenario.alice) (Int 200) false;
      FindByIdAndUpdate (JString Scenario.alice) (Int 200) true ]
  ∧ refund_attempts (Scenario.pay 200)
      (run (transfer (Scenario.pay 200))
         [quiet; quiet; quiet; removed Scenario.bob; outage]
         Scenario.seeded) = 2%nat.
Proof. vm_compute. split; reflexivity. Qed.

(** ** No overdraft *)









(** ** Existence checks *)



(** ** A request alone in the system *)

Lemma sys_run_finished (fs : list bool) (σ : Store) (p : Prog) :
  (∀ c k, p ≠ Call c k) ->
  sys_run (map (Resumes 0) fs) (mkSystem σ [p]) = mkSystem σ [p].
Proof.
  intros Hp. induction fs as [|f fs IH]; simpl; [reflexivity|].
  destruct p as [r| |c k]; simpl; try exact IH.
  exfalso. eapply Hp. reflexivity.
Qed.

(** The interleaved system and [run] agree on a request that runs alone:
    resuming it once per store call, with the same store errors, leaves the
    collection [run] computes. *)
Lemma sys_run_alone (p : Prog) (fs : list bool) (σ : Store) :
  (length (trace (run p (map (mkTurn (fun σ => σ)) fs) σ)) <= length fs)%nat ->
  store (sys_run (map (Resumes 0) fs) (mkSystem σ [p]))
  = final (run p (map (mkTurn (fun σ => σ)) fs) σ).
Proof.
  revert fs σ. induction p as [r| |c k IH]; intros fs σ Hlen.
  - rewrite sys_run_finished by discriminate. reflexivity.
  - rewrite sys_run_finished by discriminate. reflexivity.
  - destruct fs as [|f fs]; simpl in Hlen; [lia|].
    simpl. apply IH. lia.
Qed.

(** ** The scenarios of the specification *)

(** Scenario A: sender 1000, transfer 200: completed, sender 800, recipient
    200 more. *)
Example scenario_A :
  outcome (run (transfer (Scenario.pay 200)) [] Scenario.seeded)
  = Responded (json 200 (TransferSuccessful Scenario.alice (Int 800)
                                            Scenario.bob (Int 700)))
  ∧ Scenario.balance_of Scenario.alice
      (final (run (transfer (Scenario.pay 200)) [] Scenario.seeded))
    = Some (Int 800)
  ∧ Scenario.balance_of Scenario.bob
      (final (run (transfer (Scenario.pay 200)) [] Scenario.seeded))
    = Some (Int 700).
Proof. vm_compute. repeat split; reflexivity. Qed.

(** Scenario B: the amount exceeds the sender's balance: insufficient funds,
    both balances unchanged. *)
Example scenario_B :
  outcome (run (transfer (Scenario.pay 2000)) [] Scenario.seeded)
  = Responded (json 409 (Message msg_insufficient))
  ∧ final (run (transfer (Scenario.pay 2000)) [] Scenario.seeded)
    = Scenario.seeded.
Proof. vm_compute. split; reflexivity. Qed.

(** Scenario C: the recipient is deleted before the credit: the debit is
    applied, the credit finds nothing, the refund brings the sender back to
    1000. *)
Example scenario_C :
  result_of (outcome (run (transfer (Scenario.pay 200))
                        [quiet; quiet; quiet; removed Scenario.bob]
                        Scenario.seeded))
  = Some (PartiallyFailed true)
  ∧ Scenario.balance_of Scenario.alice
      (final (run (transfer (Scenario.pay 200))
                [quiet; quiet; quiet; removed Scenario.bob] Scenario.seeded))
    = Some (Int 1000).
Proof. vm_compute. split; reflexivity. Qed.

(** Scenario D: the credit and the refund both meet a store outage: the
    critical error, the sender stays at 800. *)
Example scenario_D :
  outcome (run (transfer (Scenario.pay 200))
             [quiet; quiet; quiet; outage; outage] Scenario.seeded)
  = Responded (json 500 (Message msg_critical))
  ∧ Scenario.balance_of Scenario.alice
      (final (run (transfer (Scenario.pay 200))
                [quiet; quiet; quiet; outage; outage] Scenario.seeded))
    = Some (Int 800)
  ∧ Scenario.balance_of Scenario.bob
      (final (run (transfer (Scenario.pay 200))
                [quiet; quiet; quiet; outage; outage] Scenario.seeded))
    = Some (Int 500).
Proof. vm_compute. repeat split; reflexivity. Qed.

(** Scenario E: sender and recipient are the same: invalid request, no store
    call. *)
Example scenario_E :
  run (transfer (mkTransfer (JString Scenario.alice) (JString Scenario.alice)
                            (JNumber (Int 5))))
      [] Scenario.seeded
  = mkResult (Responded (json 400 (Message msg_same))) Scenario.seeded [].
Proof. reflexivity. Qed.

(** * Further properties of the handlers *)

(** ** The order of the store calls *)

(** X5.  A transfer makes at most six store calls.  It attempts an update
    only after both existence checks answered with a document, an increment
    only after the conditional debit answered with a document, and an
    increment of the sender (a refund) only after the credit of the
    recipient raised or found nothing. *)
Theorem updates_in_order (req : TransferBody) (sched : list Turn) (σ : Store)
    (n : nat) (v : JsValue) (gte : option JsNumber) (inc : JsNumber)
    (new : bool) (a : Answer) :
  trace (run (transfer req) sched σ) !! n
  = Some (FindOneAndUpdate v gte inc new, a) ->
  (length (trace (run (transfer req) sched σ)) <= 6)%nat
  ∧ (2 <= n)%nat
  ∧ (∃ i u j w,
       trace (run (transfer req) sched σ) !! 0%nat
       = Some (Exists (fromUserId req), Doc i u)
       ∧ trace (run (transfer req) sched σ) !! 1%nat
         = Some (Exists (toUserId req), Doc j w))
  ∧ (gte = None ->
     (3 <= n)%nat
     ∧ ∃ sid s,
         trace (run (transfer req) sched σ) !! 2%nat
         = Some (FindOneAndUpdate (fromUserId req)
                   (Some (as_number (amount req)))
                   (num_neg (as_number (amount req))) true, Doc sid s))
  ∧ (gte = None -> (4 <= n)%nat ->
     ∃ a3,
       trace (run (transfer req) sched σ) !! 3%nat
       = Some (FindByIdAndUpdate (toUserId req) (as_number (amount req)) true,
               a3)
       ∧ found a3 = false
       ∧ v = fromUserId req ∧ inc = as_number (amount req)).
Proof.
  intros Hn.
  destruct (run_shape req sched σ) as (r & _ & Hs).
  inversion Hs; subst; clear Hs;
    match goal with H : _ = trace _ |- _ => rewrite <- H in *; clear H end;
    unfold FindByIdAndUpdate in *;
    repeat (destruct n as [|n]; simpl in Hn; try discriminate);
    injection Hn as <- <- <- <- <-;
    (split; [simpl; lia|]); (split; [lia|]);
    (split; [eauto 10|]);
    (split; [intros; first [discriminate | split; [lia|eauto]]|]);
    intros; try discriminate; try lia; eauto 10.
Qed.

Lemma updates_in_order_witness :
  (length (trace (run (transfer (Scenario.pay 200))
                    [quiet; quiet; quiet; outage] Scenario.seeded)) <= 6)%nat.
Proof.
  refine (proj1 (updates_in_order (Scenario.pay 200)
                   [quiet; quiet; quiet; outage] Scenario.seeded 4
                   (JString Scenario.alice) None (Int 200) true
                   (Doc Scenario.alice (mkUser "Alice" (Int 1000))) _)).
  vm_compute. reflexivity.
Defined.

(** ** Insufficient funds *)



(** ** Creating an account *)

(** X8.  [POST /users] answers 400 exactly when the name is missing or falsy
    or the balance is not of number type (a balance given as a string is
    refused); it then makes no store call.  When the body is accepted and
    the save raises, the answer is the generic 500 and nothing is saved. *)
Theorem createUser_rejects_or_saves (fresh : ObjectId) (req : UserBody)
    (sched : list Turn) (σ : Store) :
  (status_of (outcome (run (createUser fresh req) sched σ)) = Some 400%nat
   ↔ truthy (body_name req) = false ∨ typeof_number (body_balance req) = false)
  ∧ (truthy (body_name req) = false ∨ typeof_number (body_balance req) = false ->
     run (createUser fresh req) sched σ
     = mkResult (Responded (json 400 (Message msg_provide_user))) σ [])
  ∧ (truthy (body_name req) = true -> typeof_number (body_balance req) = true ->
     fails (hd quiet sched) = true ->
     outcome (run (createUser fresh req) sched σ)
     = Responded (json 500 (Message msg_server_error))
     ∧ final (run (createUser fresh req) sched σ)
       = interference (hd quiet sched) σ).
Proof.
  unfold createUser.
  destruct (truthy (body_name req)), (typeof_number (body_balance req)); simpl.
  - split.
    { unfold answer. destruct (fails (hd quiet sched)); simpl.
      - split; [discriminate|]. intros [H|H]; discriminate.
      - split; [discriminate|]. intros [H|H]; discriminate. }
    split; [intros [H|H]; discriminate|].
    intros _ _ Hf. unfold answer. rewrite Hf. simpl. auto.
  - split; [split; auto|]. split; [reflexivity|]. discriminate.
  - split; [split; auto|]. split; [reflexivity|]. discriminate.
  - split; [split; auto|]. split; [reflexivity|]. discriminate.
Qed.

(** ** Listing the accounts *)

(** X12.  [GET /users] never changes the collection; it answers 500 when the
    store raises, and otherwise lists every stored document exactly once
    and nothing else. *)
Theorem listUsers_lists (t : Turn) (σ : Store) :
  (listUsers t σ).2 = interference t σ
  ∧ (fails t = true ->
     (listUsers t σ).1 = read_json 500 (ReadMessage msg_server_error))
  ∧ (fails t = false ->
     ∃ users, (listUsers t σ).1 = read_json 200 (UserList users)
       ∧ NoDup (users.*1)
       ∧ length users = size (interference t σ)
       ∧ ∀ i u, (i, u) ∈ users ↔ interference t σ !! i = Some u).
Proof.
  unfold listUsers. simpl. split; [reflexivity|].
  destruct (fails t); split; try discriminate; try reflexivity.
  intros _. eexists. split; [reflexivity|]. split; [|split].
  - apply NoDup_fst_map_to_list.
  - apply length_map_to_list.
  - intros i u. apply elem_of_map_to_list.
Qed.

(** ** The seed script *)

Lemma run_steps_quiet (steps : list SeedStep) (raises : list bool) (σ : Store) :
  (run_steps steps raises σ).1 = Done ->
  (run_steps steps raises σ).2 = fold_left (fun s e => seed_effect e s) steps σ.
Proof.
  revert raises σ. induction steps as [|s steps IH]; intros raises σ; simpl.
  - reflexivity.
  - destruct (hd false raises); [discriminate|]. apply IH.
Qed.


(** X13.  When the seed script ends normally, the collection holds exactly
    the two documents Alice (1000) and Bob (500), whatever it held before:
    seeding resets the collection. *)
Theorem seed_resets (ida idb : ObjectId) (raises : list bool) (σ : Store) :
  ida ≠ idb ->
  (seed ida idb raises σ).1 = Done ->
  (seed ida idb raises σ).2 = <[idb := seed_bob]> (<[ida := seed_alice]> ∅)
  ∧ (∀ x u, (seed ida idb raises σ).2 !! x = Some u ->
            (x = ida ∧ u = seed_alice) ∨ (x = idb ∧ u = seed_bob))
  ∧ (seed ida idb raises σ).2 !! ida = Some seed_alice
  ∧ (seed ida idb raises σ).2 !! idb = Some seed_bob.
Proof.
  intros Hne Hd. unfold seed in *.
  rewrite (run_steps_quiet _ _ _ Hd). simpl.
  split; [reflexivity|]. split; [|split].
  - intros x u. rewrite lookup_insert. case_decide as E1.
    + intros [= <-]. right. auto.
    + rewrite lookup_insert. case_decide as E2.
      * intros [= <-]. left. auto.
      * rewrite lookup_empty. discriminate.
  - rewrite lookup_insert_ne by congruence. apply lookup_insert_eq.
  - apply lookup_insert_eq.
Qed.

Lemma seed_resets_witness :
  (seed Scenario.alice Scenario.bob [] Scenario.seeded).2 !! Scenario.alice
  = Some seed_alice.
Proof.
  refine (proj1 (proj2 (proj2 (seed_resets Scenario.alice Scenario.bob []
                                 Scenario.seeded _ _)))).
  - vm_compute. discriminate.
  - reflexivity.
Defined.

(** X14.  The seed script is not atomic.  When it exits with an error, the
    collection is either untouched, or the removal of all documents has
    already been applied: it is then empty, or holds Alice alone, or Alice
    and Bob, and what it held before is gone. *)
Theorem seed_failure_loses_documents (ida idb : ObjectId) (raises : list bool)
    (σ : Store) :
  (seed ida idb raises σ).1 = ExitedWithError ->
  (seed ida idb raises σ).2 = σ
  ∨ (hd false raises = false ∧ hd false (tl raises) = false
     ∧ ((seed ida idb raises σ).2 = ∅
        ∨ (seed ida idb raises σ).2 = <[ida := seed_alice]> ∅
        ∨ (seed ida idb raises σ).2
          = <[idb := seed_bob]> (<[ida := seed_alice]> ∅))).
Proof.
  unfold seed, seed_steps. simpl.
  destruct raises as [|r0 [|r1 [|r2 [|r3 [|r4 rs]]]]]; simpl;
    try discriminate;
    repeat match goal with
      | b : bool |- _ => destruct b; simpl
      end;
    try discriminate; intros _; auto 10.
Qed.

Lemma seed_failure_loses_documents_witness :
  (seed Scenario.alice Scenario.bob [false; false; true] Scenario.seeded).1
  = ExitedWithError
  ∧ ((seed Scenario.alice Scenario.bob [false; false; true] Scenario.seeded).2
     = Scenario.seeded
     ∨ (seed Scenario.alice Scenario.bob [false; false; true] Scenario.seeded).2
       = ∅).
Proof.
  split; [reflexivity|].
  destruct (seed_failure_loses_documents Scenario.alice Scenario.bob
              [false; false; true] Scenario.seeded eq_refl)
    as [H|_].
  - left. exact H.
  - right. reflexivity.
Defined.

(** X15.  After the seed script has ended normally, [GET /users] lists
    Alice and Bob, each once, and nothing else. *)
Theorem seed_then_list (ida idb : ObjectId) (raises : list bool) (σ : Store) :
  ida ≠ idb ->
  (seed ida idb raises σ).1 = Done ->
  ∃ users,
    (listUsers quiet (seed ida idb raises σ).2).1 = read_json 200 (UserList users)
    ∧ users ≡ₚ [(ida, seed_alice); (idb, seed_bob)].
Proof.
  intros Hne Hd. unfold seed in *.
  rewrite (run_steps_quiet _ _ _ Hd). simpl.
  eexists. split; [reflexivity|].
  rewrite map_to_list_insert.
  2:{ rewrite lookup_insert_ne by congruence. apply lookup_empty. }
  rewrite map_to_list_insert by apply lookup_empty.
  rewrite map_to_list_empty. apply perm_swap.
Qed.

Lemma seed_then_list_witness :
  ∃ users,
    (listUsers quiet (seed Scenario.alice Scenario.bob [] ∅).2).1
    = read_json 200 (UserList users)
    ∧ users ≡ₚ [(Scenario.alice, seed_alice); (Scenario.bob, seed_bob)].
Proof.
  apply (seed_then_list Scenario.alice Scenario.bob [] ∅).
  - vm_compute. discriminate.
  - reflexivity.
Defined.

(** * Properties of the handlers over doubles *)

(** From here on the names of handlers, store calls and runs are those of
    module [Doubles]. *)
Import Doubles.

#[local] Set Warnings "-inexact-float".

(** ** Numbers *)

(** In doubles [b - a] is [b + (-a)], the value [$inc] by [-a] stores. *)
Lemma num_sub_add_neg (b a : JsNumber) :
  num_add b (num_neg a) = num_sub b a.
Proof.
  unfold num_add, num_neg, num_sub.
  rewrite <- (SF2Prim_Prim2SF (b + - a)%float), <- (SF2Prim_Prim2SF (b - a)%float).
  f_equal. rewrite FloatAxioms.add_spec, FloatAxioms.sub_spec, FloatAxioms.opp_spec.
  unfold SF64add, SF64sub.
  destruct (Prim2SF b) as [sb|sb| |sb mb eb], (Prim2SF a) as [sa|sa| |sa ma ea];
    try reflexivity; simpl;
    try (destruct sb, sa; reflexivity).
Qed.

(** An amount covered by a negative balance is itself not positive. *)
Lemma covered_by_negative (a b : JsNumber) :
  num_le a b = true -> num_lt b 0%float = true -> num_le a 0%float = true.
Proof.
  unfold num_le, num_lt. rewrite !FloatAxioms.leb_spec, FloatAxioms.ltb_spec.
  assert (Hz : Prim2SF 0%float = S754_zero false) by reflexivity. rewrite Hz.
  generalize (Prim2SF a) (Prim2SF b). intros x y. unfold SFleb, SFltb.
  destruct x as [sx|sx| |sx mx ex], y as [sy|sy| |sy my ey]; simpl;
    try discriminate;
    try (destruct sx); try (destruct sy); simpl;
    try discriminate; try reflexivity.
Qed.

(** ** Store calls *)

Lemma resolve_cast (t : Turn) (v : JsValue) (i : ObjectId) :
  castObjectId v = Some i -> resolve t v = Some i.
Proof. unfold resolve. intros ->. reflexivity. Qed.

Lemma cast_fails_false (gte : option JsNumber) (inc : JsNumber) :
  cast_fails gte inc = false ->
  isNaN inc = false ∧ ∀ g, gte = Some g -> isNaN g = false.
Proof.
  unfold cast_fails. intros H. apply orb_false_elim in H as [H1 H2].
  split; [exact H1|]. intros g ->. exact H2.
Qed.

(** A call that raised or found nothing leaves the collection as the
    interference left it. *)
Lemma unapplied_call (t : Turn) (c : StoreCall) (σ : Store) :
  applied (c, (answer t c σ).1) = false ->
  (answer t c σ).2 = interference t σ.
Proof.
  unfold answer. destruct (fails t); [reflexivity|].
  destruct c as [v|v gte inc new|i n b]; simpl.
  - destruct (resolve t v); [|reflexivity].
    destruct (_ !! _); reflexivity.
  - destruct (cast_fails gte inc); [reflexivity|].
    destruct (resolve t v); [|reflexivity].
    destruct (_ !! _); [|reflexivity].
    destruct (matches_gte _ _); [discriminate|reflexivity].
  - destruct (castName t n); [|reflexivity].
    destruct (_ || _); [reflexivity|].
    destruct (_ !! _); [reflexivity|discriminate].
Qed.

(** An update answered with a document: which document, what it held, and
    what the collection holds afterwards. *)
Lemma update_answered (t : Turn) (v : JsValue) (gte : option JsNumber)
    (inc : JsNumber) (new : bool) (σ σ' : Store) (i : ObjectId) (u : User) :
  answer t (FindOneAndUpdate v gte inc new) σ = (Doc i u, σ') ->
  ∃ u0, resolve t v = Some i ∧ interference t σ !! i = Some u0
        ∧ matches_gte gte (balance u0) = true
        ∧ cast_fails gte inc = false
        ∧ u = (if new then inc_balance inc u0 else u0)
        ∧ σ' = <[i := inc_balance inc u0]> (interference t σ).
Proof.
  unfold answer. destruct (fails t); [discriminate|]. simpl.
  destruct (cast_fails gte inc); [discriminate|].
  destruct (resolve t v) as [j|]; [|discriminate].
  destruct (_ !! j) as [u0|] eqn:E; [|discriminate].
  destruct (matches_gte _ _) eqn:G; [|discriminate].
  intros [= <- <- <-]. exists u0. repeat split; auto.
Qed.

Lemma probe_answered (t : Turn) (v : JsValue) (σ σ' : Store)
    (i : ObjectId) (u : User) :
  answer t (Exists v) σ = (Doc i u, σ') ->
  resolve t v = Some i ∧ interference t σ !! i = Some u
  ∧ σ' = interference t σ.
Proof.
  unfold answer. destruct (fails t); [discriminate|]. simpl.
  destruct (resolve t v) as [j|]; [|discriminate].
  destruct (_ !! j) as [u0|] eqn:E; [|discriminate].
  intros [= <- <- <-]. auto.
Qed.

Lemma probe_leaves_store (t : Turn) (v : JsValue) (σ σ' : Store) (a : Answer) :
  answer t (Exists v) σ = (a, σ') -> σ' = interference t σ.
Proof.
  unfold answer. destruct (fails t); [intros [= _ <-]; reflexivity|]. simpl.
  destruct (resolve t v) as [j|]; [|intros [= _ <-]; reflexivity].
  destruct (_ !! j); intros [= _ <-]; reflexivity.
Qed.

Lemma call_raised (t : Turn) (c : StoreCall) (σ σ' : Store) :
  answer t c σ = (Threw, σ') -> σ' = interference t σ.
Proof.
  intros H. pose proof (unapplied_call t c σ) as Hn.
  rewrite H in Hn. simpl in Hn. apply Hn.
  destruct c; reflexivity.
Qed.

Lemma call_found_nothing (t : Turn) (c : StoreCall) (σ σ' : Store) :
  answer t c σ = (Null, σ') -> σ' = interference t σ.
Proof.
  intros H. pose proof (unapplied_call t c σ) as Hn.
  rewrite H in Hn. simpl in Hn. apply Hn.
  destruct c; reflexivity.
Qed.

(** An update that found nothing: the call did not raise, and the document
    it names is missing or fails the condition. *)
Lemma update_found_nothing (t : Turn) (v : JsValue) (gte : option JsNumber)
    (inc : JsNumber) (new : bool) (σ σ' : Store) :
  answer t (FindOneAndUpdate v gte inc new) σ = (Null, σ') ->
  fails t = false ∧ cast_fails gte inc = false
  ∧ ∃ i, resolve t v = Some i
         ∧ ∀ u0, interference t σ !! i = Some u0 ->
                 matches_gte gte (balance u0) = false.
Proof.
  unfold answer. destruct (fails t); [discriminate|]. simpl.
  destruct (cast_fails gte inc); [discriminate|].
  destruct (resolve t v) as [j|]; [|discriminate].
  destruct (_ !! j) as [u0|] eqn:E.
  - destruct (matches_gte _ _) eqn:G; [discriminate|].
    intros _. split; [reflexivity|]. split; [reflexivity|].
    exists j. split; [reflexivity|].
    intros u1 Hu. rewrite E in Hu. injection Hu as Hu. subst u1. exact G.
  - intros _. split; [reflexivity|]. split; [reflexivity|].
    exists j. split; [reflexivity|].
    intros u1 Hu. rewrite E in Hu. discriminate Hu.
Qed.

(** What the answer to a call tells about document [x] afterwards. *)
Lemma call_effect (t : Turn) (c : StoreCall) (σ : Store) (x : ObjectId) :
  (answer t c σ).2 !! x
  = effect_on x (c, (answer t c σ).1) (interference t σ !! x).
Proof.
  unfold answer. destruct (fails t); [destruct c; reflexivity|].
  destruct c as [v|v gte inc new|i n b]; simpl.
  - destruct (resolve t v) as [i|]; [|reflexivity].
    destruct (_ !! i); reflexivity.
  - destruct (cast_fails gte inc); [reflexivity|].
    destruct (resolve t v) as [i|]; [|reflexivity].
    destruct (_ !! i) as [u0|] eqn:E; [|reflexivity].
    destruct (matches_gte _ _); [|reflexivity]. simpl.
    destruct (String.eqb_spec i x) as [->|Hne].
    + rewrite lookup_insert_eq, E. reflexivity.
    + rewrite lookup_insert_ne by exact Hne. reflexivity.
  - destruct (castName t n); [|reflexivity].
    destruct (_ || _); [reflexivity|].
    destruct (_ !! i) eqn:E; [reflexivity|]. simpl.
    destruct (String.eqb_spec i x) as [->|Hne].
    + apply lookup_insert_eq.
    + apply lookup_insert_ne. exact Hne.
Qed.

(** ** Runs *)

Lemma run_follows_path (p : Prog) (sched : list Turn) (σ : Store) :
  path p (trace (run p sched σ)) (outcome (run p sched σ)).
Proof.
  revert sched σ. induction p as [r| |c k IH]; intros sched σ; simpl.
  - constructor.
  - constructor.
  - constructor. apply IH.
Qed.

Lemma turn_leaves (x : ObjectId) (sched : list Turn) :
  Forall (leaves x) sched -> leaves x (hd quiet sched).
Proof.
  destruct sched as [|t s]; simpl; intros H.
  - intros σ. reflexivity.
  - eapply Forall_inv; eauto.
Qed.

Lemma later_turns_leave (x : ObjectId) (sched : list Turn) :
  Forall (leaves x) sched -> Forall (leaves x) (tl sched).
Proof.
  destruct sched as [|t s]; simpl; intros H.
  - constructor.
  - eapply Forall_inv_tail; eauto.
Qed.

(** The first six turns of a schedule leave [x] alone when all do. *)
Lemma first_turns_leave (x : ObjectId) (sched : list Turn) :
  Forall (leaves x) sched ->
  leaves x (hd quiet sched)
  ∧ leaves x (hd quiet (tl sched))
  ∧ leaves x (hd quiet (tl (tl sched)))
  ∧ leaves x (hd quiet (tl (tl (tl sched))))
  ∧ leaves x (hd quiet (tl (tl (tl (tl sched)))))
  ∧ leaves x (hd quiet (tl (tl (tl (tl (tl sched)))))).
Proof.
  intros H. repeat split; repeat (try apply turn_leaves; apply later_turns_leave);
    try apply turn_leaves; exact H.
Qed.

(** The net effect of a run on a document that nothing else touches is the
    composition of the effects of its own logged calls. *)
Lemma run_net_effect (p : Prog) (sched : list Turn) (σ : Store) (x : ObjectId) :
  Forall (leaves x) sched ->
  final (run p sched σ) !! x
  = fold_left (fun d ca => effect_on x ca d) (trace (run p sched σ)) (σ !! x).
Proof.
  revert sched σ. induction p as [r| |c k IH]; intros sched σ Hl; simpl.
  - reflexivity.
  - reflexivity.
  - rewrite IH by (apply later_turns_leave; exact Hl).
    rewrite call_effect. rewrite (turn_leaves _ _ Hl). reflexivity.
Qed.

Lemma unapplied_no_effect (x : ObjectId) (tr : list (StoreCall * Answer))
    (d : option User) :
  Forall (fun ca => applied ca = false) tr ->
  fold_left (fun d ca => effect_on x ca d) tr d = d.
Proof.
  revert d. induction tr as [|[c a] tr IH]; intros d H; simpl.
  - reflexivity.
  - inversion H as [|? ? Hca Htr]; subst. rewrite IH by exact Htr.
    destruct c, a; simpl in *; try reflexivity; discriminate.
Qed.

Lemma run_replays (p : Prog) (sched : list Turn) (σ : Store) :
  replay sched σ (trace (run p sched σ)) (final (run p sched σ)).
Proof.
  revert sched σ. induction p as [r| |c k IH]; intros sched σ; simpl.
  - constructor.
  - constructor.
  - econstructor; [apply surjective_pairing | apply IH].
Qed.

(** ** The paths of a transfer *)

Lemma path_has_shape (req : TransferBody) (tr : list (StoreCall * Answer))
    (o : Outcome) :
  path (transfer req) tr o -> ∃ r, o = Responded r ∧ shape req tr r.
Proof.
  unfold transfer. destruct (validate req) as [r|] eqn:V; cbn.
  - intros H. inversion H; subst. eexists. split; [reflexivity|].
    constructor. exact V.
  - intros H.
    repeat match goal with
      | H : path (Call _ _) _ _ |- _ => inversion H; subst; clear H
      | H : path (Ret _) _ _ |- _ => inversion H; subst; clear H
      | H : path Throw _ _ |- _ => inversion H; subst; clear H
      | H : path ?p _ _ |- _ =>
          match p with
          | context [match ?a with Threw => _ | Null => _ | Doc _ _ => _ end] =>
              is_var a; destruct a; cbn in H
          end
      | H : path _ _ _ |- _ => progress cbn in H
      end;
    (eexists; split; [reflexivity|]);
    try (econstructor; solve [eauto | discriminate | congruence]).
Qed.

(** Every run of a transfer ends in a response and has one of the shapes. *)
Lemma run_has_shape (req : TransferBody) (sched : list Turn) (σ : Store) :
  ∃ r, outcome (run (transfer req) sched σ) = Responded r
       ∧ shape req (trace (run (transfer req) sched σ)) r.
Proof. apply path_has_shape, run_follows_path. Qed.

Lemma invalid_status (req : TransferBody) (r : Response) :
  validate req = Some r -> status r = 400%nat.
Proof.
  unfold validate.
  repeat match goal with |- context [if ?b then _ else _] => destruct b end;
    intros [= <-]; reflexivity.
Qed.

Lemma valid_request (req : TransferBody) :
  validate req = None ->
  truthy (fromUserId req) = true ∧ truthy (toUserId req) = true
  ∧ typeof_number (amount req) = true
  ∧ strict_eq (fromUserId req) (toUserId req) = false
  ∧ num_le (as_number (amount req)) 0%float = false.
Proof.
  unfold validate.
  destruct (truthy (fromUserId req)), (truthy (toUserId req)),
    (typeof_number (amount req)); simpl; try discriminate.
  destruct (strict_eq _ _); [discriminate|].
  destruct (num_le _ _); [discriminate|]. auto.
Qed.

(** Taking a replayed trace apart, call by call. *)
Ltac unroll :=
  repeat match goal with
    | H : replay _ _ (_ :: _) _ |- _ =>
        let A := fresh "A" in
        let R := fresh "R" in
        inversion H as [|? ? ? ? ? ? ? A R]; subst; clear H
    | H : replay _ _ [] _ |- _ => inversion H; subst; clear H
    end.

(** What each logged answer says about the store it came from. *)
Ltac told :=
  repeat match goal with
    | A : answer _ (Exists _) _ = (Doc _ _, _) |- _ =>
        apply probe_answered in A as (? & ? & ->)
    | A : answer _ (FindOneAndUpdate _ _ _ _) _ = (Doc _ _, _) |- _ =>
        apply update_answered in A as (? & ? & ? & ? & ? & -> & ->)
    | A : answer _ _ _ = (Threw, _) |- _ =>
        apply call_raised in A as ->
    end.

(** ** Completed transfers *)

(** A string of 24 hexadecimal digits is all a cast identifier can come
    from. *)
Lemma cast_is_string (v : JsValue) (i : ObjectId) :
  castObjectId v = Some i ->
  ∃ s, v = JString s ∧ isObjectIdString s = true ∧ i = lower s.
Proof.
  destruct v as [| | | |s|]; simpl; try discriminate.
  destruct (isObjectIdString s) eqn:E; [|discriminate].
  intros [= <-]. exists s. auto.
Qed.

(** C3.  For a transfer answered 200 the returned balances are those of the
    documents the conditional debit and the credit answered with, which are
    the last two store calls of the request: nothing is read afterwards.
    When the two identifiers are strings of 24 hexadecimal digits naming two
    different documents and nothing else writes to these two documents
    during the call, the sender's balance covered the amount, the returned
    sender balance is its balance before the call minus the amount and the
    returned recipient balance is its balance before the call plus the
    amount, each rounded to the nearest double, and these are the balances
    the two documents hold at the end. *)
Theorem completed_balances (req : TransferBody) (sched : list Turn)
    (σ : Store) (fb tb : JsNumber) :
  result_of (outcome (run (transfer req) sched σ)) = Some (Completed fb tb) ->
  (∃ i u j w sid s rid rc,
     trace (run (transfer req) sched σ)
     = [ (Exists (fromUserId req), Doc i u);
         (Exists (toUserId req), Doc j w);
         (FindOneAndUpdate (fromUserId req) (Some (as_number (amount req)))
            (num_neg (as_number (amount req))) true, Doc sid s);
         (FindByIdAndUpdate (toUserId req) (as_number (amount req)) true,
          Doc rid rc) ]
     ∧ fb = balance s ∧ tb = balance rc)
  ∧ ∀ f t : ObjectId,
      castObjectId (fromUserId req) = Some f ->
      castObjectId (toUserId req) = Some t ->
      f ≠ t ->
      Forall (leaves f) sched -> Forall (leaves t) sched ->
      ∃ bf bt,
        balance_of f σ = Some bf ∧ balance_of t σ = Some bt
        ∧ num_le (as_number (amount req)) bf = true
        ∧ fb = num_sub bf (as_number (amount req))
        ∧ tb = num_add bt (as_number (amount req))
        ∧ balance_of f (final (run (transfer req) sched σ)) = Some fb
        ∧ balance_of t (final (run (transfer req) sched σ)) = Some tb.
Proof.
  intros Ho.
  destruct (run_has_shape req sched σ) as (r & Ho' & Hs).
  rewrite Ho' in Ho. simpl in Ho.
  pose proof (run_replays (transfer req) sched σ) as Hr.
  destruct Hs as [r0 V| | | | | |i u j w sid s rid r0 V| | | | |];
    simpl in Ho; try discriminate.
  { apply invalid_status in V. destruct r0 as [st b]. simpl in *. subst st.
    discriminate. }
  injection Ho as <- <-.
  split.
  { exists i, u, j, w, sid, s, rid, r0. auto. }
  intros f t Cf Ct Hne Hf Ht.
  unfold FindByIdAndUpdate in *.
  set (σ' := final (run (transfer req) sched σ)) in *. clearbody σ'. clear Ho'.
  unroll; told.
  destruct (first_turns_leave _ _ Hf) as (F1 & F2 & F3 & F4 & _).
  destruct (first_turns_leave _ _ Ht) as (R1 & R2 & R3 & R4 & _).
  repeat match goal with
    | H : resolve _ ?v = Some _, C : castObjectId ?v = Some _ |- _ =>
        rewrite (resolve_cast _ _ _ C) in H; injection H as <-
    end.
  repeat match goal with
    | L : _ !! _ = Some _ |- _ =>
        progress repeat first
          [ rewrite F4 in L | rewrite F3 in L | rewrite F2 in L
          | rewrite F1 in L | rewrite R4 in L | rewrite R3 in L
          | rewrite R2 in L | rewrite R1 in L
          | rewrite lookup_insert_ne in L by exact Hne ]
    end.
  repeat match goal with
    | L1 : σ !! ?k = Some ?a, L2 : σ !! ?k = Some ?b |- _ =>
        rewrite L1 in L2; injection L2 as <-
    end.
  match goal with
  | Lf : σ !! f = Some ?uf, Lt : σ !! t = Some ?ut |- _ =>
      exists (balance uf), (balance ut); unfold balance_of; rewrite Lf, Lt
  end.
  match goal with
  | G : matches_gte (Some _) _ = true |- _ => cbn [matches_gte] in G; unfold num_ge in G
  end.
  cbn [inc_balance balance]. rewrite num_sub_add_neg.
  repeat split; try reflexivity; try assumption.
  - rewrite lookup_insert_ne by congruence. rewrite F4.
    rewrite lookup_insert_eq. simpl. rewrite num_sub_add_neg. reflexivity.
  - rewrite lookup_insert_eq. reflexivity.
Qed.

Lemma completed_balances_witness :
  balance_of alice (final (run (transfer (pay 200%float)) [] seeded))
  = Some 800%float
  ∧ balance_of bob (final (run (transfer (pay 200%float)) [] seeded))
    = Some 700%float.
Proof.
  assert (H : result_of (outcome (run (transfer (pay 200%float)) [] seeded))
              = Some (Completed 800%float 700%float))
    by (vm_compute; reflexivity).
  destruct (proj2 (completed_balances (pay 200%float) [] seeded
                     800%float 700%float H) alice bob
              ltac:(vm_compute; reflexivity) ltac:(vm_compute; reflexivity)
              ltac:(discriminate) ltac:(constructor) ltac:(constructor))
    as (bf & bt & _ & _ & _ & _ & _ & Ff & Ft).
  split; [exact Ff | exact Ft].
Defined.

(** The sum of the two returned balances differs from the sum before the
    call: 1000 and 0.1 become 999.8 and 0.30000000000000004, which add up
    to 1000.0999999999999 and not to 1000.1.  Between two accounts holding
    9007199254740992 each, a transfer of 1 takes 1 from the sender and
    leaves the recipient's balance where it was.  A transfer between two
    spellings of one identifier is completed and returns for the recipient
    its balance before the call, not that balance plus the amount. *)
Lemma completed_sum_not_conserved :
  (∃ fb tb,
     result_of (outcome (run (transfer (pay 0.2%float)) []
                           (accounts 1000%float 0.1%float)))
     = Some (Completed fb tb)
     ∧ num_eq (num_add fb tb) (num_add 1000%float 0.1%float) = false)
  ∧ result_of (outcome (run (transfer (pay 1%float)) [] (accounts two53 two53)))
    = Some (Completed 9007199254740991%float two53)
  ∧ result_of
      (outcome (run (transfer (mkTransfer (JString bob) (JString bob_upper)
                                 (JNumber 200%float))) [] seeded))
    = Some (Completed 300%float 500%float)
  ∧ balance_of bob seeded = Some 500%float.
Proof.
  split; [|split; [|split]].
  - eexists _, _. split; vm_compute; reflexivity.
  - vm_compute. reflexivity.
  - vm_compute. reflexivity.
  - vm_compute. reflexivity.
Qed.

(** ** Compensated failures *)

(** What an update that found nothing says about the store it came from. *)
Ltac told_nothing :=
  repeat match goal with
    | A : answer _ (FindOneAndUpdate _ _ _ _) _ = (Null, _) |- _ =>
        let N := fresh "N" in
        pose proof (update_found_nothing _ _ _ _ _ _ _ A) as (_ & ? & ? & ? & N);
        apply call_found_nothing in A as ->
    end.

(** Looking a document up behind the turns and updates of a run. *)
Ltac lookups :=
  repeat first
    [ rewrite lookup_insert_eq
    | rewrite lookup_insert_ne by congruence
    | match goal with
      | L : leaves ?x _ |- context [interference _ _ !! ?x] => rewrite L
      end ].

Ltac lookups_in H :=
  repeat first
    [ rewrite lookup_insert_eq in H
    | rewrite lookup_insert_ne in H by congruence
    | match type of H with
      | context [interference ?t _ !! ?x] =>
          match goal with L : leaves x t |- _ => rewrite L in H end
      end ].

(** The identifiers the store answered with are the one the request's
    identifier is cast to. *)
Ltac same_document :=
  repeat match goal with
    | H : resolve _ ?v = Some _, C : castObjectId ?v = Some _ |- _ =>
        rewrite (resolve_cast _ _ _ C) in H; injection H as <-
    end.

(** C6.  For a transfer answered with a credit failure that was compensated,
    whose sender is named by a string of 24 hexadecimal digits and whose
    sender document nothing else wrote to during the call: the sender's
    balance covered the amount, and its balance at the end is the balance
    before the call, minus the amount, plus the amount, each step rounded to
    the nearest double.  Every document other than the sender's that
    nothing else wrote to, the recipient's when it is a different one, is as
    before the call. *)
Theorem compensated_balance (req : TransferBody) (sched : list Turn)
    (σ : Store) (f : ObjectId) :
  result_of (outcome (run (transfer req) sched σ)) = Some (PartiallyFailed true) ->
  castObjectId (fromUserId req) = Some f ->
  Forall (leaves f) sched ->
  (∃ bf,
     balance_of f σ = Some bf
     ∧ num_le (as_number (amount req)) bf = true
     ∧ balance_of f (final (run (transfer req) sched σ))
       = Some (num_add (num_sub bf (as_number (amount req)))
                       (as_number (amount req))))
  ∧ ∀ x : ObjectId, x ≠ f -> Forall (leaves x) sched ->
      final (run (transfer req) sched σ) !! x = σ !! x.
Proof.
  intros Ho Cf Hf.
  destruct (run_has_shape req sched σ) as (r & Ho' & Hs).
  rewrite Ho' in Ho. simpl in Ho.
  pose proof (run_replays (transfer req) sched σ) as Hr.
  set (σ' := final (run (transfer req) sched σ)) in *. clearbody σ'. clear Ho'.
  destruct (first_turns_leave _ _ Hf) as (F1 & F2 & F3 & F4 & F5 & F6).
  assert (Hx : ∀ x, Forall (leaves x) sched ->
                 leaves x (hd quiet sched)
                 ∧ leaves x (hd quiet (tl sched))
                 ∧ leaves x (hd quiet (tl (tl sched)))
                 ∧ leaves x (hd quiet (tl (tl (tl sched))))
                 ∧ leaves x (hd quiet (tl (tl (tl (tl sched)))))
                 ∧ leaves x (hd quiet (tl (tl (tl (tl (tl sched)))))))
    by (intros x; apply first_turns_leave).
  destruct Hs as [r0 V| | | | | | |i u j w sid s a V Ha
                 |i u j w sid s a V Ha| |i u j w sid s a V Ha|];
    simpl in Ho; try discriminate.
  { apply invalid_status in V. destruct r0 as [st b]. simpl in *. subst st.
    discriminate. }
  all: unfold FindByIdAndUpdate in *.
  all: destruct a as [| |rid rc]; [congruence| |].
  all: unroll; told; told_nothing; same_document.
  all: try match goal with
    | N : ∀ u0, _ !! _ = Some u0 -> matches_gte None _ = false |- _ =>
        exfalso; lookups_in N;
        specialize (N _ eq_refl); discriminate N
    end.
  all: repeat match goal with
    | L : _ !! _ = Some _ |- _ => progress lookups_in L
    end.
  all: repeat match goal with
    | L1 : ?m !! ?k = Some ?a, L2 : ?m !! ?k = Some ?b |- _ =>
        rewrite L1 in L2; injection L2 as <-
    | L : Some _ = Some _ |- _ => injection L as <-
    end.
  all: match goal with
    | C : castObjectId _ = Some ?f0, L : _ !! ?f0 = Some ?u |- _ =>
        split; [ exists (balance u); unfold balance_of; rewrite L |]
    end.
  all: try match goal with
    | G : matches_gte (Some _) _ = true |- _ ∧ _ =>
        cbn [matches_gte] in G; unfold num_ge in G;
        split; [reflexivity|]; split; [exact G|];
        lookups; cbn [inc_balance balance fmap option_fmap option_map name];
        rewrite num_sub_add_neg; reflexivity
    end.
  all: intros z Hne Hl; destruct (Hx z Hl) as (X1 & X2 & X3 & X4 & X5 & X6);
    lookups; reflexivity.
Qed.

Lemma compensated_balance_witness :
  ∃ bf,
    balance_of alice seeded = Some bf
    ∧ balance_of alice
        (final (run (transfer (pay 200%float)) [quiet; quiet; quiet; outage]
                  seeded))
      = Some (num_add (num_sub bf 200%float) 200%float).
Proof.
  destruct (proj1 (compensated_balance (pay 200%float)
                     [quiet; quiet; quiet; outage] seeded alice
                     ltac:(vm_compute; reflexivity)
                     ltac:(vm_compute; reflexivity)
                     ltac:(repeat constructor)))
    as (bf & Hb & _ & Hf).
  exists bf. split; [exact Hb | exact Hf].
Defined.

(** A sender holding 226.23 sends 76.29 and the credit raises: the refund is
    applied and the transfer is reported compensated, but the sender now
    holds 226.23000000000002. *)
Lemma compensated_not_restored :
  result_of
    (outcome (run (transfer (pay 76.29%float)) [quiet; quiet; quiet; outage]
                (accounts 226.23%float 500%float)))
  = Some (PartiallyFailed true)
  ∧ balance_of alice (accounts 226.23%float 500%float) = Some 226.23%float
  ∧ ∃ b,
      balance_of alice
        (final (run (transfer (pay 76.29%float)) [quiet; quiet; quiet; outage]
                  (accounts 226.23%float 500%float)))
      = Some b
      ∧ num_eq b 226.23%float = false.
Proof.
  split; [vm_compute; reflexivity|].
  split; [vm_compute; reflexivity|].
  eexists. split; vm_compute; reflexivity.
Qed.

(** ** An amount that is not a number *)

Lemma unanswered_rejection (req : TransferBody)
    (tr : list (StoreCall * Answer)) (r : Response) :
  shape req tr r -> status r ≠ 200%nat ->
  (∀ m, r = json 500 (Message m) -> m = msg_server_error) ->
  Forall (fun ca => applied ca = false) tr.
Proof.
  intros Hs H200 H500.
  destruct Hs; simpl in *; try congruence; repeat constructor;
    try (exfalso; specialize (H500 _ eq_refl); discriminate H500).
Qed.

Lemma run_call (c : StoreCall) (k : Answer -> Prog) (sched : list Turn)
    (σ σ1 : Store) (a : Answer) :
  answer (hd quiet sched) c σ = (a, σ1) ->
  run (Call c k) sched σ = logged (c, a) (run (k a) (tl sched) σ1).
Proof. intros H. simpl. rewrite H. reflexivity. Qed.

Lemma probe_finds (t : Turn) (v : JsValue) (σ : Store) (i : ObjectId)
    (u : User) :
  fails t = false -> resolve t v = Some i -> interference t σ !! i = Some u ->
  answer t (Exists v) σ = (Doc i u, interference t σ).
Proof.
  intros F R L. unfold answer. rewrite F. simpl. rewrite R, L. reflexivity.
Qed.

(** A conditional update whose bound is [NaN] raises. *)
Lemma nan_guard_raises (t : Turn) (v : JsValue) (inc : JsNumber) (new : bool)
    (σ : Store) :
  answer t (FindOneAndUpdate v (Some NaN) inc new) σ
  = (Threw, interference t σ).
Proof.
  unfold answer. destruct (fails t); [reflexivity|]. simpl.
  replace (cast_fails (Some NaN) inc) with true; [reflexivity|].
  unfold cast_fails. destruct (isNaN inc); reflexivity.
Qed.

(** C9.  A transfer whose amount is [NaN] passes the validation.  It is
    never answered 409, nor 200: whatever the collection, the other writers
    and the store errors, the request applies no update and leaves every
    document that nothing else wrote to as it was.  When the two identifiers
    are strings of 24 hexadecimal digits naming existing documents and the
    two existence checks run undisturbed, the request reaches the
    conditional debit, which raises because the store library refuses [NaN]
    as a number, and the answer is the generic 500. *)
Theorem nan_amount_server_error (from to : JsValue) (sched : list Turn)
    (σ : Store) :
  truthy from = true -> truthy to = true -> strict_eq from to = false ->
  validate (mkTransfer from to (JNumber NaN)) = None
  ∧ Forall (fun ca => applied ca = false)
      (trace (run (transfer (mkTransfer from to (JNumber NaN))) sched σ))
  ∧ (∀ x : ObjectId, Forall (leaves x) sched ->
       final (run (transfer (mkTransfer from to (JNumber NaN))) sched σ) !! x
       = σ !! x)
  ∧ (∀ r, outcome (run (transfer (mkTransfer from to (JNumber NaN))) sched σ)
          = Responded r ->
          status r ≠ 409%nat ∧ status r ≠ 200%nat)
  ∧ (∀ (f t : ObjectId) (uf ut : User),
       castObjectId from = Some f -> castObjectId to = Some t ->
       σ !! f = Some uf -> σ !! t = Some ut ->
       undisturbed (hd quiet sched) -> undisturbed (hd quiet (tl sched)) ->
       trace (run (transfer (mkTransfer from to (JNumber NaN))) sched σ)
       = [ (Exists from, Doc f uf); (Exists to, Doc t ut);
           (FindOneAndUpdate from (Some NaN) (num_neg NaN) true, Threw) ]
       ∧ outcome (run (transfer (mkTransfer from to (JNumber NaN))) sched σ)
         = Responded (json 500 (Message msg_server_error))).
Proof.
  intros Tf Tt Hne.
  set (req := mkTransfer from to (JNumber NaN)).
  assert (V : validate req = None).
  { unfold validate, req. simpl. rewrite Tf, Tt, Hne. reflexivity. }
  assert (Hst : ∀ tr r σ', shape req tr r -> replay sched σ tr σ' ->
                status r ≠ 409%nat ∧ status r ≠ 200%nat
                ∧ (∀ m, r = json 500 (Message m) -> m = msg_server_error)).
  { intros tr r σ' Hs Hr.
    destruct Hs; try (rewrite V in *; discriminate);
      try (repeat split; try discriminate; intros m [= <-]; reflexivity);
      exfalso; unfold FindByIdAndUpdate in *; unroll; told; told_nothing;
      match goal with
      | H : cast_fails (Some _) _ = false |- _ => vm_compute in H; discriminate H
      end. }
  destruct (run_has_shape req sched σ) as (r & Ho & Hs).
  pose proof (run_replays (transfer req) sched σ) as Hr.
  destruct (Hst _ _ _ Hs Hr) as (H409 & H200 & H500).
  pose proof (unanswered_rejection _ _ _ Hs H200 H500) as Hna.
  split; [exact V|]. split; [exact Hna|]. split.
  { intros x Hx. rewrite run_net_effect by exact Hx.
    apply unapplied_no_effect. exact Hna. }
  split.
  { intros r' Hr'. rewrite Ho in Hr'. injection Hr' as <-. auto. }
  intros f t uf ut Cf Ct Lf Lt [U1 I1] [U2 I2].
  unfold transfer. fold req. rewrite V.
  cbn [try_catch transfer_checked fromUserId toUserId amount as_number req].
  erewrite run_call
    by (apply probe_finds; [exact U1 | apply resolve_cast; exact Cf
                           | rewrite I1; exact Lf]).
  rewrite I1.
  erewrite run_call
    by (apply probe_finds; [exact U2 | apply resolve_cast; exact Ct
                           | rewrite I2; exact Lt]).
  rewrite I2.
  cbn [found negb await try_catch].
  erewrite run_call by (apply nan_guard_raises).
  cbn. auto.
Qed.

Lemma nan_amount_server_error_witness :
  outcome (run (transfer (pay NaN)) [] seeded)
  = Responded (json 500 (Message msg_server_error))
  ∧ final (run (transfer (pay NaN)) [] seeded) !! alice = seeded !! alice.
Proof.
  pose proof (nan_amount_server_error (JString alice) (JString bob) [] seeded
                ltac:(reflexivity) ltac:(reflexivity) ltac:(reflexivity))
    as (_ & _ & Hx & _ & Hd).
  split.
  - refine (proj2 (Hd alice bob (mkUser "Alice" 1000%float)
                     (mkUser "Bob" 500%float) _ _ _ _ _ _));
      try (vm_compute; reflexivity); split; try reflexivity; intros ?; reflexivity.
  - apply Hx. constructor.
Defined.

(** With both accounts in place a transfer of [NaN] is answered with the
    generic 500, which stands for no kind of rejection, and not with 409:
    the conditional debit raised. *)
Lemma nan_amount_not_409 :
  outcome (run (transfer (pay NaN)) [] seeded)
  = Responded (json 500 (Message msg_server_error))
  ∧ result_of (outcome (run (transfer (pay NaN)) [] seeded)) = None
  ∧ last (trace (run (transfer (pay NaN)) [] seeded))
    = Some (FindOneAndUpdate (JString alice) (Some NaN) (num_neg NaN) true,
            Threw).
Proof. repeat split; vm_compute; reflexivity. Qed.

(** ** Account creation *)

(** While a document's balance is negative, no conditional debit of a
    positive amount matches it. *)
Lemma negative_not_debited (g b : JsNumber) :
  num_lt b 0%float = true -> num_le g 0%float = false ->
  matches_gte (Some g) b = false.
Proof.
  intros Hb Hg. cbn [matches_gte]. unfold num_ge.
  destruct (num_le g b) eqn:E; [|reflexivity].
  rewrite (covered_by_negative _ _ E Hb) in Hg. discriminate Hg.
Qed.

(** C10.  Account creation with a non-empty name under a new identifier
    accepts every balance of number type except [NaN], negative ones
    included, and stores it as given; for [NaN], which passes the handler's
    own test, the save raises because the store library refuses [NaN] as a
    number: the answer is the generic 500 and nothing is saved.  A debit
    does not restore non-negativity: a transfer whose sender, named by a
    string of 24 hexadecimal digits, holds a negative balance leaves the
    sender's document as it is, when nothing else writes to that document
    during the call. *)
Theorem balance_accepted_unless_nan (fresh : ObjectId) (n : string)
    (b : JsNumber) (t : Turn) (σ : Store) :
  n ≠ EmptyString ->
  (isNaN b = false -> fails t = false -> interference t σ !! fresh = None ->
   outcome (run (createUser fresh (mkUserBody (JString n) (JNumber b))) [t] σ)
   = Responded (json 201 (UserCreated fresh (mkUser n b)))
   ∧ final (run (createUser fresh (mkUserBody (JString n) (JNumber b))) [t] σ)
     = <[fresh := mkUser n b]> (interference t σ))
  ∧ (isNaN b = true ->
     outcome (run (createUser fresh (mkUserBody (JString n) (JNumber b))) [t] σ)
     = Responded (json 500 (Message msg_server_error))
     ∧ final (run (createUser fresh (mkUserBody (JString n) (JNumber b))) [t] σ)
       = interference t σ)
  ∧ (∀ (req : TransferBody) (sched : list Turn) (σ0 : Store) (f : ObjectId)
       (u : User),
       castObjectId (fromUserId req) = Some f ->
       σ0 !! f = Some u -> num_lt (balance u) 0%float = true ->
       Forall (leaves f) sched ->
       final (run (transfer req) sched σ0) !! f = Some u).
Proof.
  intros Hn.
  assert (Tn : truthy (JString n) = true).
  { simpl. destruct (String.eqb_spec n EmptyString); [contradiction|reflexivity]. }
  assert (En : String.eqb n EmptyString = false).
  { destruct (String.eqb_spec n EmptyString); [contradiction|reflexivity]. }
  split; [|split].
  - intros Hb Hf Hl. unfold createUser.
    cbn [body_name body_balance typeof_number as_number]. rewrite Tn.
    cbn [negb orb await try_catch].
    erewrite run_call.
    2:{ unfold answer. cbn [hd]. rewrite Hf. cbn [store_call castName].
        rewrite En, Hb, Hl. reflexivity. }
    cbn. auto.
  - intros Hb. unfold createUser.
    cbn [body_name body_balance typeof_number as_number]. rewrite Tn.
    cbn [negb orb await try_catch].
    erewrite run_call.
    2:{ unfold answer. cbn [hd]. instantiate (1 := interference t σ).
        instantiate (1 := Threw).
        destruct (fails t); [reflexivity|]. cbn [store_call castName].
        rewrite En, Hb. reflexivity. }
    cbn. auto.
  - intros req sched σ0 f u Cf Lf Hneg Hl.
    rewrite run_net_effect by exact Hl. rewrite Lf.
    destruct (run_has_shape req sched σ0) as (r & Ho & Hs).
    pose proof (run_replays (transfer req) sched σ0) as Hr.
    set (σ' := final (run (transfer req) sched σ0)) in *. clearbody σ'.
    destruct (first_turns_leave _ _ Hl) as (F1 & F2 & F3 & F4 & F5 & F6).
    assert (Hd : ∀ tr r, shape req tr r -> replay sched σ0 tr σ' ->
                   Forall (fun ca => applied ca = false) tr).
    { intros tr r0 Hs0 Hr0.
      destruct Hs0 as [r1 V| | | | | |? ? ? ? ? ? ? ? V|? ? ? ? ? ? ? V
                      |? ? ? ? ? ? ? V| ? ? ? ? ? ? V|? ? ? ? ? ? ? V
                      |? ? ? ? ? ? V];
        try (repeat constructor);
        exfalso; apply valid_request in V as (_ & _ & _ & _ & V);
        unfold FindByIdAndUpdate in *; unroll;
        repeat match goal with
          | A : answer _ (Exists _) _ = (Doc _ _, _) |- _ =>
              apply probe_answered in A as (? & ? & ->)
          | A : answer _ (FindOneAndUpdate _ (Some _) _ _) _ = (Doc _ _, _) |- _ =>
              apply update_answered in A as (? & ? & ? & ? & ? & ? & ?)
          end;
        same_document;
        repeat match goal with
          | L : _ !! _ = Some _ |- _ => progress lookups_in L
          end;
        repeat match goal with
          | L1 : ?m !! ?k = Some ?a, L2 : ?m !! ?k = Some ?c |- _ =>
              rewrite L1 in L2; injection L2 as <-
          end;
        match goal with
        | G : matches_gte (Some _) (balance _) = true |- _ =>
            rewrite (negative_not_debited _ _ Hneg V) in G; discriminate G
        end. }
    rewrite (unapplied_no_effect f _ _ (Hd _ _ Hs Hr)). reflexivity.
Qed.

Lemma balance_accepted_unless_nan_witness :
  outcome (run (createUser carol (mkUserBody (JString "Carol")
                                    (JNumber (-50)%float))) [quiet] seeded)
  = Responded (json 201 (UserCreated carol (mkUser "Carol" (-50)%float))).
Proof.
  refine (proj1 (proj1 (balance_accepted_unless_nan carol "Carol" (-50)%float
                          quiet seeded _) _ _ _));
    [discriminate | vm_compute; reflexivity | reflexivity
    | vm_compute; reflexivity].
Defined.

(** A balance of [NaN] is not accepted: the answer is 500 and the
    collection is as before.  And a transfer does change the sign of a
    negative balance it credits: 100 sent to an account holding -50 leaves
    it at 50. *)
Lemma nan_balance_refused :
  outcome (run (createUser carol (mkUserBody (JString "Carol") (JNumber NaN)))
             [quiet] seeded)
  = Responded (json 500 (Message msg_server_error))
  ∧ final (run (createUser carol (mkUserBody (JString "Carol") (JNumber NaN)))
             [quiet] seeded) = seeded
  ∧ balance_of bob
      (final (run (transfer (pay 100%float)) []
                (accounts 1000%float (-50)%float)))
    = Some 50%float.
Proof. repeat split; vm_compute; reflexivity. Qed.

(** * Further properties of the handlers over doubles *)

(** ** A transfer run alone *)

Lemma isNaN_neg (a : JsNumber) : isNaN (num_neg a) = isNaN a.
Proof.
  unfold isNaN, num_neg, is_nan. rewrite !FloatAxioms.eqb_spec, FloatAxioms.opp_spec.
  destruct (Prim2SF a) as [s|s| |s m e]; try (destruct s); try reflexivity;
    unfold SFeqb, SFcompare, SFopp; cbn [negb];
    rewrite Z.compare_refl;
    match goal with
    | |- context [Pos.compare_cont Eq ?m ?m] =>
        destruct (Pos.compare_cont Eq m m); reflexivity
    end.
Qed.

Lemma run_call_with (c : StoreCall) (k : Answer -> Prog) (sched : list Turn)
    (σ : Store) (r : Answer * Store) :
  answer (hd quiet sched) c σ = r ->
  run (Call c k) sched σ = logged (c, r.1) (run (k r.1) (tl sched) r.2).
Proof. intros <-. reflexivity. Qed.

Lemma undisturbed_probe (v : JsValue) (i : ObjectId) (σ : Store) :
  castObjectId v = Some i ->
  answer quiet (Exists v) σ
  = (match σ !! i with Some u => Doc i u | None => Null end, σ).
Proof.
  intros C. unfold answer. cbn [fails quiet interference store_call].
  rewrite (resolve_cast _ _ _ C). destruct (σ !! i); reflexivity.
Qed.

Lemma undisturbed_update (v : JsValue) (i : ObjectId) (gte : option JsNumber)
    (inc : JsNumber) (new : bool) (σ : Store) :
  castObjectId v = Some i -> cast_fails gte inc = false ->
  answer quiet (FindOneAndUpdate v gte inc new) σ
  = match σ !! i with
    | Some u =>
        if matches_gte gte (balance u)
        then (Doc i (if new then inc_balance inc u else u),
              <[i := inc_balance inc u]> σ)
        else (Null, σ)
    | None => (Null, σ)
    end.
Proof.
  intros C F. unfold answer. cbn [fails quiet interference store_call].
  rewrite F, (resolve_cast _ _ _ C). reflexivity.
Qed.

(** X1.  A transfer that passes validation, with an amount that is not
    [NaN], between two strings of 24 hexadecimal digits naming different
    documents, run with nothing else going on and no store error, is decided
    by the collection alone: 404 for a missing sender (also when the
    recipient is missing too), 404 for a missing recipient, 409 when the
    sender's balance does not cover the amount, and otherwise 200 with the
    sender's balance minus the amount and the recipient's balance plus the
    amount, each rounded to the nearest double, the collection being
    changed at these two documents only.  A balance equal to the amount is
    enough.  In the first three cases the collection is unchanged. *)
Theorem transfer_alone (req : TransferBody) (σ : Store) (f t : ObjectId) :
  validate req = None ->
  isNaN (as_number (amount req)) = false ->
  castObjectId (fromUserId req) = Some f ->
  castObjectId (toUserId req) = Some t ->
  f ≠ t ->
  (σ !! f = None ->
   outcome (run (transfer req) [] σ)
   = Responded (json 404 (Message msg_no_sender))
   ∧ final (run (transfer req) [] σ) = σ)
  ∧ (∀ uf, σ !! f = Some uf -> σ !! t = None ->
     outcome (run (transfer req) [] σ)
     = Responded (json 404 (Message msg_no_recipient))
     ∧ final (run (transfer req) [] σ) = σ)
  ∧ (∀ uf ut, σ !! f = Some uf -> σ !! t = Some ut ->
     num_le (as_number (amount req)) (balance uf) = false ->
     outcome (run (transfer req) [] σ)
     = Responded (json 409 (Message msg_insufficient))
     ∧ final (run (transfer req) [] σ) = σ)
  ∧ (∀ uf ut, σ !! f = Some uf -> σ !! t = Some ut ->
     num_le (as_number (amount req)) (balance uf) = true ->
     outcome (run (transfer req) [] σ)
     = Responded
         (json 200
            (TransferSuccessful
               f (num_sub (balance uf) (as_number (amount req)))
               t (num_add (balance ut) (as_number (amount req)))))
     ∧ final (run (transfer req) [] σ)
       = <[t := mkUser (name ut)
                  (num_add (balance ut) (as_number (amount req)))]>
           (<[f := mkUser (name uf)
                     (num_sub (balance uf) (as_number (amount req)))]> σ)).
Proof.
  intros V Ha Cf Ct Hne.
  assert (Fd : cast_fails (Some (as_number (amount req)))
                 (num_neg (as_number (amount req))) = false).
  { unfold cast_fails. rewrite isNaN_neg, Ha. reflexivity. }
  assert (Fc : cast_fails None (as_number (amount req)) = false).
  { unfold cast_fails. rewrite Ha. reflexivity. }
  unfold transfer. rewrite V.
  cbn [try_catch transfer_checked].
  erewrite run_call by (cbn [hd]; apply undisturbed_probe; exact Cf).
  cbn [tl]. erewrite run_call by (cbn [hd]; apply undisturbed_probe; exact Ct).
  split; [|split; [|split]].
  - intros Lf. rewrite Lf. destruct (σ !! t); cbn; auto.
  - intros uf Lf Lt. rewrite Lf, Lt. cbn. auto.
  - intros uf ut Lf Lt G. rewrite Lf, Lt.
    cbn [found negb await try_catch tl].
    erewrite run_call_with
      by (cbn [hd]; apply undisturbed_update; [exact Cf|exact Fd]).
    rewrite Lf. cbn [matches_gte]. unfold num_ge. rewrite G. cbn. auto.
  - intros uf ut Lf Lt G. rewrite Lf, Lt.
    cbn [found negb await try_catch tl].
    erewrite run_call_with
      by (cbn [hd]; apply undisturbed_update; [exact Cf|exact Fd]).
    rewrite Lf. cbn [matches_gte]. unfold num_ge. rewrite G.
    cbn [fst snd try_catch credit_block await FindByIdAndUpdate tl].
    erewrite run_call_with
      by (cbn [hd]; apply undisturbed_update; [exact Ct|exact Fc]).
    rewrite lookup_insert_ne by exact Hne. rewrite Lt.
    cbn [matches_gte fst snd try_catch run logged outcome final inc_balance
         balance name].
    rewrite num_sub_add_neg. split; [reflexivity|].
    unfold inc_balance. rewrite num_sub_add_neg. reflexivity.
Qed.

Lemma transfer_alone_witness :
  outcome (run (transfer (pay 1000%float)) [] seeded)
  = Responded
      (json 200
         (TransferSuccessful alice (num_sub 1000%float 1000%float)
                             bob (num_add 500%float 1000%float))).
Proof.
  destruct (transfer_alone (pay 1000%float) seeded alice bob
              ltac:(vm_compute; reflexivity) ltac:(vm_compute; reflexivity)
              ltac:(vm_compute; reflexivity) ltac:(vm_compute; reflexivity)
              ltac:(discriminate)) as (_ & _ & _ & H).
  exact (proj1 (H (mkUser "Alice" 1000%float) (mkUser "Bob" 500%float)
                  ltac:(vm_compute; reflexivity) ltac:(vm_compute; reflexivity)
                  ltac:(vm_compute; reflexivity))).
Defined.

(** ** A completed transfer among other writers *)

(** X2.  A transfer answered 200, whatever else wrote to the collection
    between its store calls: the amount is a number, not [NaN], for which
    [amount <= 0] is false; the returned sender balance is the balance the
    debit found at the moment it ran, which covered the amount, minus the
    amount; the returned recipient balance is the balance the credit found
    at the moment it ran plus the amount, each rounded to the nearest
    double; and the collection ends as the credit left it.  Each update is
    one read-modify-write on the document as it then was. *)
Theorem completed_atomic_updates (req : TransferBody) (sched : list Turn)
    (σ : Store) (fid : ObjectId) (fb : JsNumber) (tid : ObjectId)
    (tb : JsNumber) :
  outcome (run (transfer req) sched σ)
  = Responded (json 200 (TransferSuccessful fid fb tid tb)) ->
  ∃ uf ut : User,
    isNaN (as_number (amount req)) = false
    ∧ num_le (as_number (amount req)) 0%float = false
    ∧ interference (hd quiet (tl (tl sched)))
        (interference (hd quiet (tl sched)) (interference (hd quiet sched) σ))
      !! fid = Some uf
    ∧ num_le (as_number (amount req)) (balance uf) = true
    ∧ fb = num_sub (balance uf) (as_number (amount req))
    ∧ interference (hd quiet (tl (tl (tl sched))))
        (<[fid := mkUser (name uf) fb]>
           (interference (hd quiet (tl (tl sched)))
              (interference (hd quiet (tl sched))
                 (interference (hd quiet sched) σ))))
      !! tid = Some ut
    ∧ tb = num_add (balance ut) (as_number (amount req))
    ∧ final (run (transfer req) sched σ)
      = <[tid := mkUser (name ut) tb]>
          (interference (hd quiet (tl (tl (tl sched))))
             (<[fid := mkUser (name uf) fb]>
                (interference (hd quiet (tl (tl sched)))
                   (interference (hd quiet (tl sched))
                      (interference (hd quiet sched) σ))))).
Proof.
  intros Ho.
  destruct (run_has_shape req sched σ) as (r & Ho' & Hs).
  rewrite Ho' in Ho. injection Ho as ->.
  pose proof (run_replays (transfer req) sched σ) as Hr.
  set (σ' := final (run (transfer req) sched σ)) in *. clearbody σ'. clear Ho'.
  inversion Hs as [r0 V| | | | | |i u j w sid s rid r0 V| | | | |];
    subst; clear Hs.
  { apply invalid_status in V. discriminate. }
  match goal with H : _ = trace _ |- _ => rewrite <- H in Hr; clear H end.
  apply valid_request in V as (_ & _ & _ & _ & V).
  unfold FindByIdAndUpdate in *.
  unroll.
  repeat match goal with
    | A : answer _ (Exists _) _ = _ |- _ =>
        apply probe_leaves_store in A; subst
    end.
  told.
  match goal with
  | F : cast_fails (Some _) _ = false |- _ =>
      apply cast_fails_false in F as (_ & F); specialize (F _ eq_refl)
  end.
  match goal with
  | Lf : _ !! fid = Some ?uf, Lt : _ !! tid = Some ?ut |- _ =>
      exists uf, ut
  end.
  match goal with
  | G : matches_gte (Some _) _ = true |- _ =>
      cbn [matches_gte] in G; unfold num_ge in G
  end.
  unfold inc_balance in *. cbn [balance name] in *.
  rewrite num_sub_add_neg in *.
  repeat split; try assumption; reflexivity.
Qed.

Lemma completed_atomic_updates_witness :
  ∃ uf ut : User,
    balance uf = 1300%float
    ∧ 100%float = num_sub (balance uf) 1200%float
    ∧ 1700%float = num_add (balance ut) 1200%float.
Proof.
  destruct (completed_atomic_updates (pay 1200%float)
              [quiet; quiet; deposit_300] seeded
              alice 100%float bob 1700%float)
    as (uf & ut & _ & _ & Lf & _ & Ef & _ & Et & _).
  - vm_compute. reflexivity.
  - exists uf, ut. split; [|split; assumption].
    vm_compute in Lf. injection Lf as <-. reflexivity.
Defined.

(** ** The critical failure *)

(** X4.  A transfer that ends in the critical error (credit failed and
    refund raised), whose sender is named by a string of 24 hexadecimal
    digits and whose sender document nothing else wrote to during the call,
    has applied the debit and nothing else: the sender's balance covered the
    amount and is now that balance minus the amount, rounded to the nearest
    double, and every other document that nothing else wrote to is as
    before. *)
Theorem critical_leaves_debit (req : TransferBody) (sched : list Turn)
    (σ : Store) (f : ObjectId) :
  result_of (outcome (run (transfer req) sched σ)) = Some (PartiallyFailed false) ->
  castObjectId (fromUserId req) = Some f ->
  Forall (leaves f) sched ->
  (∃ bf,
     balance_of f σ = Some bf
     ∧ num_le (as_number (amount req)) bf = true
     ∧ balance_of f (final (run (transfer req) sched σ))
       = Some (num_sub bf (as_number (amount req))))
  ∧ ∀ x : ObjectId, x ≠ f -> Forall (leaves x) sched ->
      final (run (transfer req) sched σ) !! x = σ !! x.
Proof.
  intros Ho Cf Hf.
  destruct (run_has_shape req sched σ) as (r & Ho' & Hs).
  rewrite Ho' in Ho. simpl in Ho.
  pose proof (run_replays (transfer req) sched σ) as Hr.
  set (σ' := final (run (transfer req) sched σ)) in *. clearbody σ'. clear Ho'.
  destruct (first_turns_leave _ _ Hf) as (F1 & F2 & F3 & F4 & F5 & F6).
  assert (Hx : ∀ x, Forall (leaves x) sched ->
                 leaves x (hd quiet sched)
                 ∧ leaves x (hd quiet (tl sched))
                 ∧ leaves x (hd quiet (tl (tl sched)))
                 ∧ leaves x (hd quiet (tl (tl (tl sched))))
                 ∧ leaves x (hd quiet (tl (tl (tl (tl sched)))))
                 ∧ leaves x (hd quiet (tl (tl (tl (tl (tl sched)))))))
    by (intros x; apply first_turns_leave).
  destruct Hs as [r0 V| | | | | | | | |i u j w sid s V| |i u j w sid s V];
    simpl in Ho; try discriminate.
  { apply invalid_status in V. destruct r0 as [st b]. simpl in *. subst st.
    discriminate. }
  all: unfold FindByIdAndUpdate in *.
  all: unroll; told; told_nothing; same_document.
  all: repeat match goal with
    | L : _ !! _ = Some _ |- _ => progress lookups_in L
    end.
  all: repeat match goal with
    | L1 : ?m !! ?k = Some ?a, L2 : ?m !! ?k = Some ?b |- _ =>
        rewrite L1 in L2; injection L2 as <-
    | L : Some _ = Some _ |- _ => injection L as <-
    end.
  all: match goal with
    | C : castObjectId _ = Some ?f0, L : _ !! ?f0 = Some ?u |- _ =>
        split; [ exists (balance u); unfold balance_of; rewrite L |]
    end.
  all: try match goal with
    | G : matches_gte (Some _) _ = true |- _ ∧ _ =>
        cbn [matches_gte] in G; unfold num_ge in G;
        split; [reflexivity|]; split; [exact G|];
        lookups; cbn [inc_balance balance fmap option_fmap option_map name];
        rewrite num_sub_add_neg; reflexivity
    end.
  all: intros z Hne Hl; destruct (Hx z Hl) as (X1 & X2 & X3 & X4 & X5 & X6);
    lookups; reflexivity.
Qed.

Lemma critical_leaves_debit_witness :
  ∃ bf,
    balance_of alice seeded = Some bf
    ∧ balance_of alice
        (final (run (transfer (pay 200%float))
                  [quiet; quiet; quiet; outage; outage] seeded))
      = Some (num_sub bf 200%float).
Proof.
  destruct (proj1 (critical_leaves_debit (pay 200%float)
                     [quiet; quiet; quiet; outage; outage] seeded alice
                     ltac:(vm_compute; reflexivity)
                     ltac:(vm_compute; reflexivity)
                     ltac:(repeat constructor)))
    as (bf & Hb & _ & Hf).
  exists bf. split; [exact Hb | exact Hf].
Defined.

(** ** What a transfer leaves alone *)

Lemma transfer_saves_nothing (req : TransferBody)
    (tr : list (StoreCall * Answer)) (r : Response) :
  shape req tr r ->
  Forall (fun ca => match ca.1 with Save _ _ _ => False | _ => True end) tr.
Proof.
  intros Hs.
  destruct Hs;
    repeat match goal with
      | |- Forall _ (_ :: _) => constructor
      | |- Forall _ [] => constructor
      end; exact I.
Qed.

(** A probe or an update leaves a document in place, with its name. *)
Lemma effect_keeps_presence (x : ObjectId) (tr : list (StoreCall * Answer))
    (d : option User) :
  Forall (fun ca => match ca.1 with Save _ _ _ => False | _ => True end) tr ->
  (fold_left (fun d ca => effect_on x ca d) tr d = None ↔ d = None)
  ∧ name <$> fold_left (fun d ca => effect_on x ca d) tr d = name <$> d.
Proof.
  revert d. induction tr as [|[c a] tr IH]; intros d H; cbn [fold_left].
  - split; reflexivity.
  - inversion H as [|? ? Hc Htr]; subst.
    destruct (IH (effect_on x (c, a) d) Htr) as [IH1 IH2].
    rewrite IH1, IH2.
    destruct c as [v|v g inc new|i n b]; [| |destruct Hc];
      destruct a as [| |i u]; simpl; try (split; reflexivity);
      destruct (String.eqb i x); try (split; reflexivity);
      destruct d as [u0|]; simpl; split; try reflexivity;
      split; discriminate.
Qed.

(** The updates of a transfer between two identifier strings are answered
    with the documents these strings name: any other document is out of
    their reach. *)
Lemma others_out_of_reach (req : TransferBody) (tr : list (StoreCall * Answer))
    (r : Response) (sched : list Turn) (σ σ' : Store) (f t x : ObjectId)
    (d : option User) :
  shape req tr r -> replay sched σ tr σ' ->
  castObjectId (fromUserId req) = Some f ->
  castObjectId (toUserId req) = Some t ->
  x ≠ f -> x ≠ t ->
  fold_left (fun d ca => effect_on x ca d) tr d = d.
Proof.
  intros Hs Hr Cf Ct Hf Ht.
  destruct Hs; unfold FindByIdAndUpdate in *;
    repeat match goal with
      | a : Answer |- _ => destruct a
      end;
    try reflexivity;
    unroll; told; same_document; cbn [fold_left effect_on];
    repeat match goal with
      | |- context [String.eqb ?i x] =>
          destruct (String.eqb_spec i x); [congruence|]
      end;
    reflexivity.
Qed.

(** X3.  Whatever its outcome, a transfer creates no document, removes none
    and changes no name; and when its two identifiers are strings of 24
    hexadecimal digits, it leaves every document other than the two they
    name exactly as it was (all this for documents nothing else wrote to
    during the call). *)
Theorem transfer_frame (req : TransferBody) (sched : list Turn) (σ : Store)
    (x : ObjectId) :
  Forall (leaves x) sched ->
  (final (run (transfer req) sched σ) !! x = None ↔ σ !! x = None)
  ∧ name <$> final (run (transfer req) sched σ) !! x = name <$> σ !! x
  ∧ ∀ f t : ObjectId,
      castObjectId (fromUserId req) = Some f ->
      castObjectId (toUserId req) = Some t ->
      x ≠ f -> x ≠ t ->
      final (run (transfer req) sched σ) !! x = σ !! x.
Proof.
  intros Hx.
  destruct (run_has_shape req sched σ) as (r & _ & Hs).
  pose proof (run_replays (transfer req) sched σ) as Hr.
  rewrite run_net_effect by exact Hx.
  destruct (effect_keeps_presence x _ (σ !! x) (transfer_saves_nothing _ _ _ Hs))
    as [H1 H2].
  split; [exact H1|]. split; [exact H2|].
  intros f t Cf Ct Hf Ht.
  eapply others_out_of_reach; eauto.
Qed.

Lemma transfer_frame_witness :
  final (run (transfer (pay 200%float)) [] (<[carol := mkUser "Carol" 7%float]> seeded))
    !! carol
  = (<[carol := mkUser "Carol" 7%float]> seeded) !! carol.
Proof.
  refine (proj2 (proj2 (transfer_frame (pay 200%float) []
                          (<[carol := mkUser "Carol" 7%float]> seeded) carol
                          ltac:(constructor)))
            alice bob _ _ _ _);
    first [discriminate | vm_compute; reflexivity].
Defined.

(** ** Reading a balance *)

(** X9.  [GET /users/:id/balance] never changes the collection; it answers
    500 when the store raises; and for an identifier of 24 hexadecimal
    digits, in whatever letter case, it answers 404 when no document has
    these digits and otherwise 200 with the identifier in lower case, the
    name and the balance of the stored document. *)
Theorem getBalance_decides (id : string) (t : Turn) (σ : Store) :
  (getBalance id t σ).2 = interference t σ
  ∧ (fails t = true ->
     (getBalance id t σ).1 = read_json 500 (ReadMessage msg_server_error))
  ∧ (fails t = false -> isObjectIdString id = true ->
     (getBalance id t σ).1
     = match interference t σ !! lower id with
       | Some u => read_json 200 (BalanceOf (lower id) (name u) (balance u))
       | None => read_json 404 (ReadMessage msg_user_not_found)
       end).
Proof.
  unfold getBalance, FindById. cbn [fst snd].
  split; [|split].
  - destruct (answer t (Exists (JString id)) σ) as [a σ'] eqn:A.
    apply probe_leaves_store in A. exact A.
  - intros F. unfold answer. rewrite F. reflexivity.
  - intros F Hid. unfold answer. rewrite F. cbn [store_call].
    unfold resolve. cbn [castObjectId]. rewrite Hid.
    destruct (interference t σ !! lower id); reflexivity.
Qed.

(** ** Creating an account and reading it back *)

(** X10.  Creating an account with a non-empty name and a balance that is
    not [NaN], under a new identifier, and then reading its balance returns
    the name and the balance that were posted; the creation adds this one
    document and leaves every other document as it was. *)
Theorem create_then_read (fresh : ObjectId) (n : string) (b : JsNumber)
    (σ : Store) :
  n ≠ EmptyString -> isNaN b = false ->
  castObjectId (JString fresh) = Some fresh ->
  σ !! fresh = None ->
  (getBalance fresh quiet
     (final (run (createUser fresh (mkUserBody (JString n) (JNumber b))) [] σ))).1
  = read_json 200 (BalanceOf fresh n b)
  ∧ final (run (createUser fresh (mkUserBody (JString n) (JNumber b))) [] σ)
      !! fresh = Some (mkUser n b)
  ∧ ∀ x : ObjectId, x ≠ fresh ->
      final (run (createUser fresh (mkUserBody (JString n) (JNumber b))) [] σ)
        !! x = σ !! x.
Proof.
  intros Hn Hb Cf Lf.
  assert (En : String.eqb n EmptyString = false).
  { destruct (String.eqb_spec n EmptyString); [contradiction|reflexivity]. }
  assert (E : final (run (createUser fresh (mkUserBody (JString n) (JNumber b)))
                       [] σ)
              = <[fresh := mkUser n b]> σ).
  { unfold createUser.
    cbn [body_name body_balance typeof_number as_number truthy]. rewrite En.
    cbn [negb orb await try_catch].
    erewrite run_call.
    2:{ unfold answer. cbn [hd quiet fails interference store_call castName].
        rewrite En, Hb, Lf. reflexivity. }
    reflexivity. }
  rewrite E. split; [|split].
  - unfold getBalance, FindById. rewrite (undisturbed_probe _ _ _ Cf).
    rewrite lookup_insert_eq. reflexivity.
  - apply lookup_insert_eq.
  - intros x Hx. apply lookup_insert_ne. congruence.
Qed.

Lemma create_then_read_witness :
  (getBalance carol quiet
     (final (run (createUser carol (mkUserBody (JString "Carol")
                                      (JNumber 12.5%float))) [] seeded))).1
  = read_json 200 (BalanceOf carol "Carol" 12.5%float).
Proof.
  refine (proj1 (create_then_read carol "Carol" 12.5%float seeded _ _ _ _));
    first [discriminate | vm_compute; reflexivity].
Defined.

(** ** Reading the balances after a transfer *)

(** X11.  After a transfer between two strings of 24 hexadecimal digits
    naming different documents, run alone and answered 200, reading the
    balance of the sender and of the recipient returns the two new balances
    the transfer response reported. *)
Theorem completed_then_read (req : TransferBody) (σ : Store) (f t : string)
    (fb tb : JsNumber) :
  fromUserId req = JString f -> toUserId req = JString t ->
  isObjectIdString f = true -> isObjectIdString t = true ->
  lower f ≠ lower t ->
  result_of (outcome (run (transfer req) [] σ)) = Some (Completed fb tb) ->
  ∃ nf nt,
    (getBalance f quiet (final (run (transfer req) [] σ))).1
    = read_json 200 (BalanceOf (lower f) nf fb)
    ∧ (getBalance t quiet (final (run (transfer req) [] σ))).1
      = read_json 200 (BalanceOf (lower t) nt tb).
Proof.
  intros Ef Et Hf Ht Hne Ho.
  assert (Cf : castObjectId (JString f) = Some (lower f))
    by (cbn [castObjectId]; rewrite Hf; reflexivity).
  assert (Ct : castObjectId (JString t) = Some (lower t))
    by (cbn [castObjectId]; rewrite Ht; reflexivity).
  destruct (run_has_shape req [] σ) as (r & Ho' & Hs).
  rewrite Ho' in Ho. simpl in Ho.
  pose proof (run_replays (transfer req) [] σ) as Hr.
  set (σ' := final (run (transfer req) [] σ)) in *. clearbody σ'. clear Ho'.
  destruct Hs as [r0 V| | | | | |i u j w sid s rid r0 V| | | | |];
    simpl in Ho; try discriminate.
  { apply invalid_status in V. destruct r0 as [st b]. simpl in *. subst st.
    discriminate. }
  injection Ho as <- <-.
  unfold FindByIdAndUpdate in *. rewrite Ef, Et in Hr.
  unroll; told. cbn [hd tl quiet interference] in *.
  same_document.
  unfold getBalance, FindById.
  rewrite (undisturbed_probe _ _ _ Cf), (undisturbed_probe _ _ _ Ct).
  rewrite lookup_insert_eq.
  rewrite lookup_insert_ne by congruence. rewrite lookup_insert_eq.
  cbn [fst]. eexists _, _. split; reflexivity.
Qed.

Lemma completed_then_read_witness :
  ∃ nf nt,
    (getBalance alice quiet (final (run (transfer (pay 200%float)) [] seeded))).1
    = read_json 200 (BalanceOf alice nf 800%float)
    ∧ (getBalance bob_upper quiet
         (final (run (transfer (pay 200%float)) [] seeded))).1
      = read_json 200 (BalanceOf bob nt 700%float).
Proof.
  destruct (completed_then_read
              (mkTransfer (JString alice) (JString bob_upper)
                 (JNumber 200%float))
              seeded alice bob_upper 800%float 700%float
              ltac:(reflexivity) ltac:(reflexivity)
              ltac:(vm_compute; reflexivity) ltac:(vm_compute; reflexivity)
              ltac:(vm_compute; discriminate) ltac:(vm_compute; reflexivity))
    as (nf & nt & H1 & H2).
  exists nf, nt. split; [exact H1 | exact H2].
Defined.
